(** * SQLtoMy.py: the conversion engine, embedded and verified

    A shallow embedding of the algorithmic core of [src/SQLtoMy.py]:
    the dependency resolver ([topological_sort_tables]), the type mapper
    ([sqlite_to_mysql_type]), the column-clause builder and the value
    encoder with its paging loop (both inside [create_sql_dump]).

    Conventions.
    - A Python [str] is a Rocq [string], one character per code point, for
      the code points U+0000 to U+00FF.  [str.isprintable] and the regular
      expression class [\w] are given as Python has them on that whole
      range.  [str.upper] and [str.lower] are given on the ASCII letters,
      where the source's keywords live: every test the source makes on an
      upper-cased or lower-cased text compares it with an ASCII keyword,
      and has the same answer for every text of the range; a statement
      that shows an upper-cased type name takes the name to be ASCII.
    - A Python [int] is a [Z]; [bytes] is a [list byte].
    - A [dict] whose iteration order matters is an association list in
      insertion order; a [defaultdict] is a [gmap] read with a default.
    - The logger, the file system and the source database are explicit:
      log records are returned, files live in a [gmap] from paths to
      contents, a table is the list of its rows. *)

From Stdlib Require Import ZArith Ascii String List DecimalString DecimalZ DecimalPos Lia.
From Stdlib.Strings Require Import Byte.
From stdpp Require Import base option list gmap strings relations sorting.

Open Scope string_scope.
Open Scope list_scope.
Open Scope Z_scope.

(* ================================================================== *)
(** * Python primitives used by the source *)
(* ================================================================== *)

Module Py.

(** [str(n)] for an int. *)
Definition str_of_int (n : Z) : string :=
  NilZero.string_of_int (Z.to_int n).

(** One character of [str.upper], for an ASCII character; any other
    character is left as it is. *)
Definition upper_char (c : ascii) : ascii :=
  let n := nat_of_ascii c in
  if ((97 <=? n) && (n <=? 122))%nat then ascii_of_nat (n - 32) else c.

(** [s.upper()]. *)
Fixpoint upper (s : string) : string :=
  match s with
  | EmptyString => EmptyString
  | String c s' => String (upper_char c) (upper s')
  end.

(** [c.isprintable()]: everything but the control characters (0-31 and
    127-159), the no-break space (160) and the soft hyphen (173). *)
Definition isprintable (c : ascii) : bool :=
  let n := nat_of_ascii c in
  (((32 <=? n) && (n <=? 126)) || ((161 <=? n) && negb (n =? 173)))%nat.

(** [''.join(c for c in s if p(c))]. *)
Fixpoint filter_chars (p : ascii -> bool) (s : string) : string :=
  match s with
  | EmptyString => EmptyString
  | String c s' => if p c then String c (filter_chars p s') else filter_chars p s'
  end.

(** [s.replace(c, new)] for a one-character pattern [c]. *)
Fixpoint replace_char (c : ascii) (new : string) (s : string) : string :=
  match s with
  | EmptyString => EmptyString
  | String a s' =>
      if Ascii.eqb a c then new +:+ replace_char c new s'
      else String a (replace_char c new s')
  end.

(** [sep.join(l)]. *)
Fixpoint join (sep : string) (l : list string) : string :=
  match l with
  | [] => ""
  | [x] => x
  | x :: l' => x +:+ sep +:+ join sep l'
  end.

(** [d.get(k, dflt)] on a dict literal. *)
Fixpoint dict_get (d : list (string * string)) (k dflt : string) : string :=
  match d with
  | [] => dflt
  | (k', v) :: d' => if String.eqb k' k then v else dict_get d' k dflt
  end.

(** [x in l] for a tuple or list of strings. *)
Definition str_in (x : string) (l : list string) : bool :=
  existsb (String.eqb x) l.

Definition nul : ascii := "000"%char.
Definition newline : ascii := "010"%char.
Definition quote : ascii := "'"%char.
Definition backtick : ascii := "`"%char.
Definition dquote : ascii := "034"%char.
Definition nl : string := String newline "".

(** [s.isascii()]. *)
Definition isascii (s : string) : bool :=
  forallb (fun c => (nat_of_ascii c <? 128)%nat) (list_ascii_of_string s).

End Py.

(* ================================================================== *)
(** * Small helpers: lines 41-52 *)
(* ================================================================== *)

(** [escape_sql_identifier], line 41. *)
Definition escape_sql_identifier (name : string) : string :=
  Py.replace_char Py.backtick "``" name.

(** [sanitize_sql_value] on a [str] argument, line 49.  (On any other
    argument the source returns it unchanged; every call site of the
    model passes a [str].) *)
Definition sanitize_sql_value (value : string) : string :=
  Py.replace_char Py.nul "" (Py.filter_chars Py.isprintable value).

(** Log records, one constructor per logging call of the modelled code;
    each carries the values its message is formatted from. *)
Inductive log_record :=
| WarnCyclic                                   (* line 81 *)
| WarnNoMaximum (col : string)                 (* line 244 *)
| WarnComplexDefault (col default : string)    (* line 269 *)
| InfoSkipEmpty (table : string)               (* line 339 *)
| InfoCtrlC                                    (* line 351 *)
| WarnBlobNotWritten (path : string)           (* line 374 *)
| WarnBlobWriteError (path : string)           (* line 383 *)
| WarnLargeBlob (col : string) (size : Z)      (* line 386 *)
| WarnValueError (col : string).               (* line 399 *)

(* ================================================================== *)
(** * Dependency resolver: lines 54-84 *)
(* ================================================================== *)

(** A row of [PRAGMA foreign_key_list]:
    (id, seq, table, from, to, on_update, on_delete, match). *)
Record fk_row := FkRow {
  fk_id : Z;
  fk_seq : Z;
  fk_table : string;
  fk_from : string;
  fk_to : string;
  fk_on_update : string;
  fk_on_delete : string;
  fk_match : string
}.

(** The dict [foreign_keys], in insertion order. *)
Abbreviation fk_dict := (list (string * list fk_row)).

(** Reading the two [defaultdict]s. *)
Definition in_degree_at (in_degree : gmap string Z) (t : string) : Z :=
  default 0 (in_degree !! t).

Definition graph_at (graph : gmap string (list string)) (t : string) : list string :=
  default [] (graph !! t).

(** Lines 58-59. *)
Definition init_in_degree (tables : list string) : gmap string Z :=
  foldl (fun d t => <[t := 0]> d) ∅ tables.

(** Lines 63-65 for one foreign key [fk] of [table]. *)
Definition add_edge (table : string)
    (st : gmap string (list string) * gmap string Z) (fk : fk_row)
    : gmap string (list string) * gmap string Z :=
  let ref_table := fk_table fk in
  (<[ref_table := graph_at st.1 ref_table ++ [table]]> st.1,
   <[table := in_degree_at st.2 table + 1]> st.2).

(** Lines 55-65: the graph and the in-degrees. *)
Definition build_graph (tables : list string) (foreign_keys : fk_dict)
    : gmap string (list string) * gmap string Z :=
  foldl (fun st entry => foldl (add_edge entry.1) st entry.2)
        (∅, init_in_degree tables) foreign_keys.

(** Lines 76-78 for one [neighbor]. *)
Definition relax (st : gmap string Z * list string) (neighbor : string)
    : gmap string Z * list string :=
  let d := <[neighbor := in_degree_at st.1 neighbor - 1]> st.1 in
  (d, if (in_degree_at d neighbor =? 0)%Z then st.2 ++ [neighbor] else st.2).

(** The [while queue] loop, lines 71-78; [None] when [fuel] iterations do
    not empty the queue.  (The set [visited] is only ever added to and is
    left out.) *)
Fixpoint kahn_loop (fuel : nat) (graph : gmap string (list string))
    (in_degree : gmap string Z) (queue sorted_tables : list string)
    : option (list string) :=
  match queue with
  | [] => Some sorted_tables
  | table :: queue' =>
      match fuel with
      | O => None
      | S fuel' =>
          let '(in_degree', queue'') := foldl relax (in_degree, queue') (graph_at graph table) in
          kahn_loop fuel' graph in_degree' queue'' (sorted_tables ++ [table])
      end
  end.

(** Lines 67-78: Kahn's pass.  Every pass through the loop pops a table,
    and a table is queued at most once after the seeding, so
    [length tables + length foreign_keys] iterations always suffice
    ([kahn_sorted_total] below). *)
Definition kahn_sorted (tables : list string) (foreign_keys : fk_dict) : option (list string) :=
  let '(graph, in_degree) := build_graph tables foreign_keys in
  let queue := filter (fun t => in_degree_at in_degree t = 0) tables in
  kahn_loop (length tables + length foreign_keys) graph in_degree queue [].

(** Lines 80-84 on the outcome of Kahn's pass. *)
Definition append_unsorted (tables sorted_tables : list string) : list string * list log_record :=
  if decide (length sorted_tables = length tables) then (sorted_tables, [])
  else (sorted_tables ++ filter (fun t => t ∉ sorted_tables) tables, [WarnCyclic]).

(** [topological_sort_tables], line 54: the order and what was logged. *)
Definition topological_sort_tables (tables : list string) (foreign_keys : fk_dict)
    : option (list string * list log_record) :=
  append_unsorted tables <$> kahn_sorted tables foreign_keys.

(** The foreign keys as edges (dependent table, referenced table), in the
    order lines 61-65 visit them. *)
Definition edges (foreign_keys : fk_dict) : list (string * string) :=
  foreign_keys ≫= fun entry => (fun fk => (entry.1, fk_table fk)) <$> entry.2.

(** [references fks t r]: table [t] has a foreign key to table [r]. *)
Definition references (foreign_keys : fk_dict) (t r : string) : Prop :=
  (t, r) ∈ edges foreign_keys.

(** The foreign-key graph has no cycle. *)
Definition acyclic (foreign_keys : fk_dict) : Prop :=
  forall t, ~ tc (references foreign_keys) t t.

(** Every referenced table is one of the tables. *)
Definition closed_references (tables : list string) (foreign_keys : fk_dict) : Prop :=
  forall t r, references foreign_keys t r -> r ∈ tables.

(** The keys of the dict are tables, as in line 158-160 where it is built. *)
Definition keyed_by (tables : list string) (foreign_keys : fk_dict) : Prop :=
  forall t, t ∈ foreign_keys.*1 -> t ∈ tables.

(** [r] stands strictly before [t] in the order [l]. *)
Definition before (l : list string) (r t : string) : Prop :=
  exists i j, l !! i = Some r /\ l !! j = Some t /\ (i < j)%nat.

(** Lines 63-65 in terms of an edge. *)
Definition add_dep (st : gmap string (list string) * gmap string Z) (e : string * string)
    : gmap string (list string) * gmap string Z :=
  (<[e.2 := graph_at st.1 e.2 ++ [e.1]]> st.1,
   <[e.1 := in_degree_at st.2 e.1 + 1]> st.2).

(** The foreign keys of [t] whose referenced table is not yet in [sorted]. *)
Definition pending (es : list (string * string)) (sorted : list string) (t : string) : nat :=
  length (filter (fun e => e.1 = t /\ e.2 ∉ sorted) es).

(** The tables with a foreign key to [r], once per key. *)
Definition dependents (es : list (string * string)) (r : string) : list string :=
  (filter (fun e => e.2 = r) es).*1.

Definition occ (t : string) (l : list string) : nat :=
  length (filter (fun x => x = t) l).

(** In [l], every table comes after the tables it references. *)
Definition ordered (es : list (string * string)) (l : list string) : Prop :=
  forall j t r, l !! j = Some t -> (t, r) ∈ es -> exists i, (i < j)%nat /\ l !! i = Some r.

(** The invariant of the loop of lines 75-78 while the neighbours of the
    popped table [r] are visited, [p] being those already visited. *)
Definition relax_inv (es : list (string * string)) (tables sorted : list string)
    (r : string) (p : list string) (st : gmap string Z * list string) : Prop :=
  (forall t, in_degree_at st.1 t = Z.of_nat (pending es sorted t) - Z.of_nat (occ t p))
  /\ NoDup (sorted ++ r :: st.2)
  /\ (forall t, t ∈ st.2 -> t ∈ tables)
  /\ (forall t, t ∈ tables -> (t ∈ sorted ++ r :: st.2 <-> in_degree_at st.1 t = 0)).

(** The invariant of the loop of lines 71-78. *)
Definition kahn_inv (es : list (string * string)) (tables : list string)
    (in_degree : gmap string Z) (queue sorted : list string) : Prop :=
  (forall t, in_degree_at in_degree t = Z.of_nat (pending es sorted t))
  /\ NoDup (sorted ++ queue)
  /\ (forall t, t ∈ sorted ++ queue -> t ∈ tables)
  /\ (forall t, t ∈ tables -> (t ∈ sorted ++ queue <-> in_degree_at in_degree t = 0))
  /\ ordered es sorted.

(** How many of [keys] have a positive in-degree: with the length of the
    queue, the measure that bounds the passes of the loop. *)
Definition positives (keys : list string) (in_degree : gmap string Z) : nat :=
  length (filter (fun k => 0 < in_degree_at in_degree k) keys).

(* ================================================================== *)
(** * Type mapper: lines 86-120 *)
(* ================================================================== *)

(** The dict literal [mapping], lines 87-98. *)
Definition mapping (is_primary : bool) : list (string * string) :=
  [ ("TEXT", "TEXT");
    ("INTEGER", if is_primary then "BIGINT" else "INT");
    ("REAL", "DOUBLE");
    ("BLOB", "LONGBLOB");
    ("NULL", "NULL");
    ("DATETIME", "DATETIME");
    ("DATE", "DATE");
    ("BOOLEAN", "BOOLEAN");
    ("NUMERIC", "DECIMAL(10,2)");
    ("DECIMAL", "DECIMAL(10,2)") ].

(** The type chosen before the nullability suffix, lines 100-118. *)
Definition mysql_base_type (sqlite_type : string) (max_length max_value : option Z)
    (is_primary : bool) : string :=
  let sqlite_type := Py.upper sqlite_type in
  let base_type := Py.dict_get (mapping is_primary) sqlite_type sqlite_type in
  let base_type :=
    match (if String.eqb sqlite_type "TEXT" then max_length else None) with
    | Some len =>
        if (65535 <? len)%Z then "LONGTEXT"
        else if (255 <? len)%Z then "TEXT"
        else "VARCHAR(" +:+ Py.str_of_int (Z.min len 255) +:+ ")"
    | None =>
        match (if String.eqb sqlite_type "INTEGER" then max_value else None) with
        | Some v =>
            if ((-2147483648 <=? v) && (v <=? 2147483647))%Z then "INT"
            else if ((-9223372036854775808 <=? v) && (v <=? 9223372036854775807))%Z
                 then "BIGINT"
                 else base_type
        | None => base_type
        end
    end in
  if is_primary && String.eqb sqlite_type "INTEGER"
  then base_type +:+ " AUTO_INCREMENT"
  else base_type.

(** The suffix of line 120. *)
Definition nullability_suffix (nullable : bool) : string :=
  if nullable then " DEFAULT NULL" else " NOT NULL".

(** [sqlite_to_mysql_type], line 86. *)
Definition sqlite_to_mysql_type (sqlite_type : string) (max_length : option Z)
    (nullable : bool) (max_value : option Z) (is_primary : bool) : string :=
  mysql_base_type sqlite_type max_length max_value is_primary
  +:+ nullability_suffix nullable.

(* ================================================================== *)
(** * Column clauses of CREATE TABLE: lines 216-274 *)
(* ================================================================== *)

(** A row of [PRAGMA table_info]: (cid, name, type, notnull, dflt_value, pk). *)
Record column_info := ColumnInfo {
  ci_cid : Z;
  ci_name : string;
  ci_type : string;
  ci_notnull : Z;
  ci_dflt_value : option string;
  ci_pk : Z
}.

(** The per-column dict [metadata], lines 225-232. *)
Record metadata := Metadata {
  md_type : string;
  md_nullable : bool;
  md_is_primary : bool;
  md_default_value : option string;
  md_max_length : Z;
  md_max_value : Z
}.

(** Lines 219-246, for a statistic that is an integer.  [probe] is the
    answer of the [SELECT MAX(...)] query of lines 236 and 240 for the
    column ([None] for SQL NULL; a failed query leaves the initial 0 as
    well).  What the source does with an answer that is no integer is in
    [catalog_column_clause] below. *)
Definition build_metadata (probe : option Z) (col : column_info) : metadata :=
  let col_type := if String.eqb (ci_type col) "" then "TEXT" else Py.upper (ci_type col) in
  {| md_type := col_type;
     md_nullable := (ci_notnull col =? 0)%Z;
     md_is_primary := (0 <? ci_pk col)%Z;
     md_default_value := ci_dflt_value col;
     md_max_length := if String.eqb col_type "TEXT" then default 0%Z probe else 0%Z;
     md_max_value :=
       if String.eqb col_type "TEXT" then 0%Z
       else if String.eqb col_type "INTEGER" then default 0%Z probe else 0%Z |}.

(** [column_metadata], a dict keyed by column name (line 246). *)
Definition build_column_metadata (probe : string -> option Z)
    (columns_info : list column_info) : gmap string metadata :=
  foldl (fun m col => <[ci_name col := build_metadata (probe (ci_name col)) col]> m)
        ∅ columns_info.

(** The class [\w] of a [str] pattern: the underscore and the characters
    for which [str.isalnum] holds: digits and letters of ASCII, and of the
    code points above it the letters (170, 181, 186, 192-214, 216-246,
    248-255) and the numeric characters (178, 179, 185, 188-190). *)
Definition is_word_char (c : ascii) : bool :=
  let n := nat_of_ascii c in
  (((48 <=? n) && (n <=? 57)) || ((65 <=? n) && (n <=? 90))
   || ((97 <=? n) && (n <=? 122)) || (n =? 95)
   || (n =? 170) || (n =? 178) || (n =? 179) || (n =? 181) || (n =? 185) || (n =? 186)
   || ((188 <=? n) && (n <=? 190)) || ((192 <=? n) && (n <=? 214))
   || ((216 <=? n) && (n <=? 246)) || (248 <=? n))%nat.

(** What is left of [s] after the longest prefix of word characters. *)
Fixpoint skip_word (s : string) : string :=
  match s with
  | String c s' => if is_word_char c then skip_word s' else s
  | EmptyString => EmptyString
  end.

(** [s] matches [.*\)$]: no newline before a closing parenthesis that ends
    the string (or stands before a final newline). *)
Fixpoint dot_star_close (s : string) : bool :=
  match s with
  | EmptyString => false
  | String c s' =>
      (Ascii.eqb c ")" && (String.eqb s' "" || String.eqb s' Py.nl))
      || (negb (Ascii.eqb c Py.newline) && dot_star_close s')
  end.

(** [re.match(r'^\w+\(.*\)$', s)] is not [None], line 268. *)
Definition matches_call_pattern (s : string) : bool :=
  match s with
  | String c _ =>
      is_word_char c &&
      match skip_word s with
      | String "(" rest => dot_star_close rest
      | _ => false
      end
  | EmptyString => false
  end.

(** The text appended after the mapper's clause for a default value,
    lines 263-273, with the warning of line 269. *)
Definition default_clause (col_name : string) (meta : metadata) : string * list log_record :=
  match md_default_value meta with
  | None => ("", [])
  | Some d =>
      if String.eqb d "" then ("", [])
      else if String.eqb (Py.upper d) "NULL" then (" DEFAULT NULL", [])
      else if Py.str_in (md_type meta) ["TEXT"; "DATETIME"; "DATE"] then
        let default := sanitize_sql_value d in
        if matches_call_pattern default
        then ("", [WarnComplexDefault col_name default])
        else (" DEFAULT '" +:+ default +:+ "'", [])
      else (" DEFAULT " +:+ d, [])
  end.

(** One entry of [columns], lines 254-274. *)
Definition column_clause (col_name : string) (meta : metadata) : string * list log_record :=
  let mysql_type :=
    sqlite_to_mysql_type (md_type meta) (Some (md_max_length meta))
      (md_nullable meta) (Some (md_max_value meta)) (md_is_primary meta) in
  let '(dflt, logs) := default_clause col_name meta in
  ("`" +:+ escape_sql_identifier col_name +:+ "` " +:+ mysql_type +:+ dflt, logs).

(** What the query of line 236 or 240 can come to.  It raises
    [sqlite3.Error], caught at line 243; or [cursor.fetchone()[0]] is SQL
    NULL, an integer, a text or a blob: [MAX] of a column answers the
    largest stored value in SQLite's order of storage classes, and a
    column declared INTEGER stores a text that does not read as a number
    as the text it is.  A REAL answer is not among the answers modelled. *)
Inductive max_answer :=
| MaxFailed
| MaxNull
| MaxInt (n : Z)
| MaxText (s : string)
| MaxBlob (b : list byte).

(** The statistic [cursor.fetchone()[0] or 0] of lines 237 and 241, as the
    comparisons of lines 104 and 112 meet it: an integer, or [None] for a
    non-empty [str] or [bytes], which Python does not compare with an
    integer (TypeError).  After a failed query the initial 0 of lines
    232-233 is still there. *)
Definition statistic (answer : max_answer) : option Z :=
  match answer with
  | MaxFailed => Some 0%Z
  | MaxNull => Some 0%Z
  | MaxInt n => Some n
  | MaxText s => if String.eqb s "" then Some 0%Z else None
  | MaxBlob b => match b with [] => Some 0%Z | _ :: _ => None end
  end.

(** [col_type] of line 221. *)
Definition column_type (col : column_info) : string :=
  if String.eqb (ci_type col) "" then "TEXT" else Py.upper (ci_type col).

(** The columns whose statistic is queried, lines 235 and 239. *)
Definition queried (col_type : string) : bool :=
  String.eqb col_type "TEXT" || String.eqb col_type "INTEGER".

(** The entry of [columns] for one row of [PRAGMA table_info], from the
    catalog row and the answer of its statistics query: lines 219-246,
    then lines 254-274.  The result is [None] when the mapper raises
    TypeError at line 104 or 112, which nothing catches; otherwise the
    entry with the warnings logged for the column. *)
Definition catalog_column_clause (answer : max_answer) (col : column_info)
    : option (string * list log_record) :=
  let col_name := ci_name col in
  if queried (column_type col) then
    match statistic answer with
    | Some n =>
        let '(clause, logs) := column_clause col_name (build_metadata (Some n) col) in
        Some (clause,
              match answer with
              | MaxFailed => WarnNoMaximum col_name :: logs
              | _ => logs
              end)
    | None => None
    end
  else Some (column_clause col_name (build_metadata None col)).

(* ================================================================== *)
(** * Value encoder and blob externalizer: lines 357-402 *)
(* ================================================================== *)

(** A value of a fetched row, as the [sqlite3] module hands it over.  A
    float is carried by its [str()] text, the only thing the source asks
    of it. *)
Inductive value :=
| VNone
| VInt (n : Z)
| VFloat (text : string)
| VStr (s : string)
| VBytes (b : list byte).

Definition hex_digit (n : N) : ascii :=
  match n with
  | 0 => "0" | 1 => "1" | 2 => "2" | 3 => "3" | 4 => "4" | 5 => "5"
  | 6 => "6" | 7 => "7" | 8 => "8" | 9 => "9" | 10 => "a" | 11 => "b"
  | 12 => "c" | 13 => "d" | 14 => "e" | _ => "f"
  end%N%char.

Definition hex_of_byte (b : byte) : string :=
  String (hex_digit (Byte.to_N b / 16)) (String (hex_digit (Byte.to_N b mod 16)) "").

(** [b.hex()]. *)
Fixpoint bytes_hex (b : list byte) : string :=
  match b with
  | [] => ""
  | x :: b' => hex_of_byte x +:+ bytes_hex b'
  end.

(** One byte inside [repr(b)], with [q] the quote character in use. *)
Definition repr_byte (q : ascii) (x : byte) : string :=
  let c := ascii_of_byte x in
  let n := Byte.to_N x in
  if Ascii.eqb c q || Ascii.eqb c "\" then String "\" (String c "")
  else if (n =? 9)%N then "\t"
  else if (n =? 10)%N then "\n"
  else if (n =? 13)%N then "\r"
  else if ((n <? 32) || (127 <=? n))%N then "\x" +:+ hex_of_byte x
  else String c "".

(** [str(b)] for a bytes object, which is its [repr]. *)
Definition bytes_repr (b : list byte) : string :=
  let has c := existsb (fun x => Ascii.eqb (ascii_of_byte x) c) b in
  let q : ascii := if has Py.quote && negb (has Py.dquote) then Py.dquote else Py.quote in
  "b" +:+ String q (Py.join "" (map (repr_byte q) b)) +:+ String q "".

(** The arguments of [create_sql_dump] that the data export reads. *)
Record config := Config {
  export_mode : string;
  batch_size : Z;
  max_blob_size : Z;
  blob_dir : option string;
  relative_blob_paths : bool;
  dump_file : string
}.

(** The operating system as the encoder meets it: whether [os.makedirs]
    succeeds; whether opening, writing and closing a file all succeed;
    [os.path.relpath] (which depends on the working directory) and
    [os.path.dirname]; the interrupt flag as read when the page at a given
    offset is about to be fetched; and, for a file whose writing fails,
    what the attempt leaves at its path: nothing new when the [open] of
    line 371 itself fails, a created or truncated file holding what was
    written before the error otherwise. *)
Record os_env := OsEnv {
  makedirs_ok : string -> bool;
  write_ok : string -> bool;
  relpath : string -> string -> string;
  dirname : string -> string;
  ctrl_c_pressed : Z -> bool;
  write_failure_leaves : string -> option (list byte)
}.

Definition starts_with_slash (s : string) : bool :=
  match s with String "/" _ => true | _ => false end.

Fixpoint ends_with_slash (s : string) : bool :=
  match s with
  | EmptyString => false
  | String c EmptyString => Ascii.eqb c "/"
  | String _ s' => ends_with_slash s'
  end.

(** [os.path.join(a, b)] (posixpath). *)
Definition path_join (a b : string) : string :=
  if starts_with_slash b then b
  else if String.eqb a "" || ends_with_slash a then a +:+ b
  else a +:+ "/" +:+ b.

(** Line 367. *)
Definition blob_filename (item_name col_name : string) (offset : Z) (i : nat) : string :=
  item_name +:+ "_" +:+ col_name +:+ "_" +:+ Py.str_of_int offset +:+ "_"
  +:+ Py.str_of_int (Z.of_nat i) +:+ ".bin".

(** Lines 391-392 and 396-397: a sanitized, quote-doubled, quoted literal. *)
Definition quoted_literal (s : string) : string :=
  "'" +:+ Py.replace_char Py.quote "''" (sanitize_sql_value s) +:+ "'".

Abbreviation file_store := (gmap string (list byte)).

(** The body of the loop over a row's values, lines 359-400: the literal
    appended to [values], the files afterwards and the warnings logged. *)
Definition encode_value (cfg : config) (env : os_env) (item_name col_name col_type : string)
    (offset : Z) (i : nat) (files : file_store) (col_value : value)
    : string * file_store * list log_record :=
  match col_value with
  | VNone => ("NULL", files, [])
  | VBytes b =>
      if String.eqb col_type "BLOB" then
        let len := Z.of_nat (length b) in
        match blob_dir cfg with
        | Some dir =>
            if negb (String.eqb dir "") && (max_blob_size cfg <? len)%Z then
              let blob_path := path_join dir (blob_filename item_name col_name offset i) in
              if negb (makedirs_ok env dir) then
                ("NULL", files, [WarnValueError col_name])
              else if write_ok env blob_path then
                let files' := <[blob_path := b]> files in
                match files' !! blob_path with
                | None => ("NULL", files', [WarnBlobNotWritten blob_path])
                | Some _ =>
                    if relative_blob_paths cfg then
                      let rel_path := relpath env blob_path (dirname env (dump_file cfg)) in
                      ("LOAD_FILE('" +:+ rel_path +:+ "')", files', [])
                    else ("LOAD_FILE('" +:+ blob_path +:+ "')", files', [])
                end
              else
                match write_failure_leaves env blob_path with
                | Some remains => ("NULL", <[blob_path := remains]> files, [WarnBlobWriteError blob_path])
                | None => ("NULL", files, [WarnBlobWriteError blob_path])
                end
            else if (max_blob_size cfg <? len)%Z then
              ("NULL", files, [WarnLargeBlob col_name len])
            else ("UNHEX('" +:+ bytes_hex b +:+ "')", files, [])
        | None =>
            if (max_blob_size cfg <? len)%Z then
              ("NULL", files, [WarnLargeBlob col_name len])
            else ("UNHEX('" +:+ bytes_hex b +:+ "')", files, [])
        end
      else (quoted_literal (bytes_repr b), files, [])
  | VStr s => (quoted_literal s, files, [])
  | VInt n => (Py.str_of_int n, files, [])
  | VFloat text => (text, files, [])
  end.

(* ================================================================== *)
(** * Data export of one table: lines 334-424 *)
(* ================================================================== *)

(** What the run has produced so far: the statements written to the dump,
    the paging queries executed (limit, offset), the files on disk and
    the log. *)
Record run_state := RunState {
  rs_out : list string;
  rs_queries : list (Z * Z);
  rs_files : file_store;
  rs_log : list log_record
}.

(** How the export of a table ends: normally, by [sys.exit(0)] on an
    interrupt, by an exception that nothing catches, or not within the
    given number of loop iterations. *)
Inductive outcome :=
| Done (st : run_state)
| Exited (st : run_state)
| Raised
| OutOfFuel.

(** [SELECT * FROM t LIMIT limit OFFSET offset] over the rows of [t]; a
    negative limit means no limit in SQLite, a negative offset is 0. *)
Definition sql_limit_offset {A} (limit offset : Z) (rows : list A) : list A :=
  let rest := drop (Z.to_nat offset) rows in
  if (limit <? 0)%Z then rest else take (Z.to_nat limit) rest.

(** [[l[i:i+n] for i in range(0, len(l), n)]], lines 406-407. *)
Fixpoint chunks_from {A} (fuel n : nat) (l : list A) : list (list A) :=
  match fuel with
  | O => []
  | S fuel' =>
      match l with
      | [] => []
      | _ => take n l :: chunks_from fuel' n (drop n l)
      end
  end.

Definition chunks {A} (n : nat) (l : list A) : list (list A) :=
  chunks_from (length l) n l.

(** The flush-chunk size, the literal 100 of lines 406-407. *)
Definition flush_chunk : nat := 100.

Section TableExport.

Variable cfg : config.
Variable env : os_env.
Variable item_name : string.
Variable columns_info : list column_info.
Variable column_metadata : gmap string metadata.

(** Line 343. *)
Definition columns_names : string :=
  Py.join ", " (map (fun col => "`" +:+ escape_sql_identifier (ci_name col) +:+ "`") columns_info).

(** Lines 357-400 for the values of a row from column index [i] on;
    [None] is the [IndexError] or [KeyError] of lines 359-360. *)
Fixpoint encode_values (offset : Z) (i : nat) (row : list value) (files : file_store)
    : option (list string * file_store * list log_record) :=
  match row with
  | [] => Some ([], files, [])
  | col_value :: row' =>
      col ← columns_info !! i;
      meta ← column_metadata !! ci_name col;
      let '(lit, files1, log1) :=
        encode_value cfg env item_name (ci_name col) (md_type meta) offset i files col_value in
      match encode_values offset (S i) row' files1 with
      | Some (lits, files2, log2) => Some (lit :: lits, files2, log1 ++ log2)
      | None => None
      end
  end.

(** Lines 356-403: the value tuples of the rows of a page. *)
Fixpoint encode_rows (offset : Z) (page : list (list value)) (files : file_store)
    : option (list string * file_store * list log_record) :=
  match page with
  | [] => Some ([], files, [])
  | row :: page' =>
      match encode_values offset 0 row files with
      | Some (values, files1, log1) =>
          match encode_rows offset page' files1 with
          | Some (tuples, files2, log2) =>
              Some (("(" +:+ Py.join ", " values +:+ ")") :: tuples, files2, log1 ++ log2)
          | None => None
          end
      | None => None
      end
  end.

(** Lines 408-411. *)
Definition insert_sql (chunk : list string) : string :=
  "INSERT INTO `" +:+ escape_sql_identifier item_name +:+ "` (" +:+ columns_names
  +:+ ") VALUES" +:+ Py.nl +:+ "  " +:+ Py.join ("," +:+ Py.nl +:+ "  ") chunk
  +:+ ";" +:+ Py.nl.

(** Lines 405-413: the statements written for the tuples of one page. *)
Definition flush_page (values_list : list string) : list string :=
  map insert_sql (chunks flush_chunk values_list).

(** The [while offset < total_rows] loop, lines 349-416, over the rows
    [rows] of the table; [fuel] bounds the number of iterations. *)
Fixpoint export_pages (fuel : nat) (rows : list (list value)) (offset : Z)
    (st : run_state) : outcome :=
  if (offset <? Z.of_nat (length rows))%Z then
    match fuel with
    | O => OutOfFuel
    | S fuel' =>
        if ctrl_c_pressed env offset then
          Exited (RunState (rs_out st) (rs_queries st) (rs_files st) (rs_log st ++ [InfoCtrlC]))
        else
          let page := sql_limit_offset (batch_size cfg) offset rows in
          match encode_rows offset page (rs_files st) with
          | None => Raised
          | Some (values_list, files', logs) =>
              export_pages fuel' rows (offset + Z.of_nat (length page))
                (RunState (rs_out st ++ flush_page values_list)
                          (rs_queries st ++ [(batch_size cfg, offset)])
                          files' (rs_log st ++ logs))
          end
    end
  else Done st.

(** Lines 334-424 ([verify_data] only logs and is left out). *)
Definition export_table_data (fuel : nat) (rows : list (list value)) (st : run_state) : outcome :=
  if Py.str_in (export_mode cfg) ["data"; "both"] then
    if (Z.of_nat (length rows) =? 0)%Z then
      Done (RunState (rs_out st) (rs_queries st) (rs_files st)
                     (rs_log st ++ [InfoSkipEmpty item_name]))
    else export_pages fuel rows 0 st
  else Done st.

End TableExport.


(** Decoding a hexadecimal string, as the target's [UNHEX] does for a
    string of even length. *)
Definition hex_value (c : ascii) : option N :=
  let n := N_of_ascii c in
  if ((48 <=? n) && (n <=? 57))%N then Some (n - 48)%N
  else if ((97 <=? n) && (n <=? 102))%N then Some (n - 87)%N
  else if ((65 <=? n) && (n <=? 70))%N then Some (n - 55)%N
  else None.

Fixpoint unhex (s : string) : option (list byte) :=
  match s with
  | EmptyString => Some []
  | String hi (String lo s') =>
      h ← hex_value hi; l ← hex_value lo;
      x ← Byte.of_N (16 * h + l);
      (x ::.) <$> unhex s'
  | String _ EmptyString => None
  end.

(** Reading the body of a single-quoted SQL literal back: a doubled quote
    stands for one quote, a lone quote is an error. *)
Fixpoint sql_unquote (body : string) : option string :=
  match body with
  | EmptyString => Some EmptyString
  | String c body' =>
      if Ascii.eqb c Py.quote then
        match body' with
        | String c' body'' =>
            if Ascii.eqb c' Py.quote then String Py.quote <$> sql_unquote body'' else None
        | EmptyString => None
        end
      else String c <$> sql_unquote body'
  end.



(* ================================================================== *)
(** * Identifier helpers and synthetic names: lines 44-47, 297-302, 325 *)
(* ================================================================== *)

(** The first [n] characters of [s]. *)
Fixpoint take_chars (n : nat) (s : string) : string :=
  match n, s with
  | S n', String c s' => String c (take_chars n' s')
  | _, _ => EmptyString
  end.

(** [s[:k]]: a negative [k] counts from the end. *)
Definition slice_to (k : Z) (s : string) : string :=
  if (k <? 0)%Z then take_chars (Z.to_nat (Z.of_nat (String.length s) + k)) s
  else take_chars (Z.to_nat k) s.

(** [truncate_identifier], line 44.  [hash] is Python's built-in, which
    differs from run to run and is a parameter here. *)
Definition truncate_identifier (hash : string -> Z) (name : string) (max_length : Z) : string :=
  if (max_length <? Z.of_nat (String.length name))%Z
  then slice_to (max_length - 8) name +:+ "_" +:+ Py.str_of_int (hash name mod 10000)
  else name.

(** The name under which an index is created, lines 297-302;
    [index_info] answers [PRAGMA index_info] with the indexed columns. *)
Definition index_name_for (hash : string -> Z) (index_info : string -> list string)
    (item_name raw_name : string) : string :=
  let index_name := truncate_identifier hash raw_name 64 in
  let index_columns := index_info index_name in
  if String.prefix "sqlite_autoindex" index_name
  then truncate_identifier hash
         ("idx_" +:+ item_name +:+ "_" +:+ Py.join "_" index_columns +:+ "_"
          +:+ Py.str_of_int (hash index_name mod 10000)) 64
  else index_name.

(** The name of a foreign-key constraint, line 325. *)
Definition fk_constraint_name (hash : string -> Z) (item_name fk_column : string) : string :=
  truncate_identifier hash
    ("fk_" +:+ item_name +:+ "_" +:+ fk_column +:+ "_"
     +:+ Py.str_of_int (hash fk_column mod 10000)) 64.

(** Reading a back-quoted identifier body back: a doubled backtick stands
    for one, a lone backtick is an error. *)
Fixpoint unescape_sql_identifier (body : string) : option string :=
  match body with
  | EmptyString => Some EmptyString
  | String c body' =>
      if Ascii.eqb c Py.backtick then
        match body' with
        | String c' body'' =>
            if Ascii.eqb c' Py.backtick
            then String Py.backtick <$> unescape_sql_identifier body''
            else None
        | EmptyString => None
        end
      else String c <$> unescape_sql_identifier body'
  end.

(** The number of occurrences of a character. *)
Fixpoint count_char (c : ascii) (s : string) : nat :=
  match s with
  | EmptyString => O
  | String a s' => if Ascii.eqb a c then S (count_char c s') else count_char c s'
  end.

Definition is_lower_hex (c : ascii) : bool :=
  let n := nat_of_ascii c in
  (((48 <=? n) && (n <=? 57)) || ((97 <=? n) && (n <=? 102)))%nat.

(** [int(s)] for a decimal text. *)
Definition int_of_str (s : string) : option Z :=
  Z.of_int <$> NilZero.int_of_string s.

(** The keys of the dict [mapping], lines 88-97. *)
Definition mapped_types : list string :=
  ["TEXT"; "INTEGER"; "REAL"; "BLOB"; "NULL"; "DATETIME"; "DATE"; "BOOLEAN"; "NUMERIC";
   "DECIMAL"].

(** The type of a text column by its observed maximum length. *)
Definition text_type_for (n : Z) : string :=
  if (n <=? 255)%Z then "VARCHAR(" +:+ Py.str_of_int n +:+ ")"
  else if (n <=? 65535)%Z then "TEXT" else "LONGTEXT".

Definition all_word (w : string) : Prop :=
  Forall (fun c => is_word_char c = true) (list_ascii_of_string w).

Definition no_newline (m : string) : Prop :=
  Forall (fun c => c <> Py.newline) (list_ascii_of_string m).

(* ================================================================== *)
(** * Emission order of the catalog items: lines 154-171 *)
(* ================================================================== *)

(** One character of [str.lower], for an ASCII character; any other
    character is left as it is. *)
Definition lower_char (c : ascii) : ascii :=
  let n := nat_of_ascii c in
  if ((65 <=? n) && (n <=? 90))%nat then ascii_of_nat (n + 32) else c.

(** [s.lower()]. *)
Fixpoint lower (s : string) : string :=
  match s with
  | EmptyString => EmptyString
  | String c s' => String (lower_char c) (lower s')
  end.

(** [sql and sql.lower().startswith('create table')], lines 156 and 167;
    [None] is SQL NULL. *)
Definition is_create_table (sql : option string) : bool :=
  match sql with
  | Some s => negb (String.eqb s "") && String.prefix "create table" (lower s)
  | None => false
  end.

(** The list [tables], line 156. *)
Definition catalog_tables (items : list (string * option string)) : list string :=
  (filter (fun item => negb (String.eqb item.1 "sqlite_sequence") && is_create_table item.2 = true)
          items).*1.

(** [d[k] = v] on a dict in insertion order. *)
Fixpoint dict_set {V} (k : string) (v : V) (d : list (string * V)) : list (string * V) :=
  match d with
  | [] => [(k, v)]
  | (k', v') :: d' =>
      if String.eqb k' k then (k', v) :: d' else (k', v') :: dict_set k v d'
  end.

(** The dict [table_dependencies], lines 157-160.  [fk_list] answers the
    statement line 159 makes from a table name: the rows of [PRAGMA
    foreign_key_list], or [None] when the statement raises
    [sqlite3.OperationalError], as it does for a name that holds a
    backtick, which is put between backticks as it is.  Nothing catches
    that error: [None] is the end of the run. *)
Definition table_dependencies (fk_list : string -> option (list fk_row))
    (tables : list string) : option fk_dict :=
  foldl (fun acc table => d ← acc; rows ← fk_list table; Some (dict_set table rows d))
        (Some []) tables.

(** [l.index(x)]; [None] is the [ValueError] for an absent [x]. *)
Fixpoint list_index (x : string) (l : list string) : option nat :=
  match l with
  | [] => None
  | y :: l' => if String.eqb y x then Some O else S <$> list_index x l'
  end.

(** An item with its rank: (name, sql, rank). *)
Abbreviation ranked_item := (string * option string * nat)%type.

(** Lines 164-170: the items with their ranks, [sqlite_sequence] left out. *)
Definition rank_items (sorted_tables : list string) (items : list (string * option string))
    : list ranked_item :=
  items ≫= fun item =>
    if String.eqb item.1 "sqlite_sequence" then []
    else if is_create_table item.2 && Py.str_in item.1 sorted_tables
         then [(item.1, item.2, default (length sorted_tables) (list_index item.1 sorted_tables))]
         else [(item.1, item.2, length sorted_tables)].

(** [list.sort(key=rank)] is stable; every stable sort returns the same
    list, here by insertion from the right. *)
Fixpoint insert_by_rank (x : ranked_item) (l : list ranked_item) : list ranked_item :=
  match l with
  | [] => [x]
  | y :: l' => if (x.2 <=? y.2)%nat then x :: y :: l' else y :: insert_by_rank x l'
  end.

Definition sort_by_rank (l : list ranked_item) : list ranked_item :=
  foldr insert_by_rank [] l.

(** Lines 156-171: [sorted_items]; [None] when a statement of line 159
    raised. *)
Definition sorted_items (fk_list : string -> option (list fk_row))
    (items : list (string * option string)) : option (list ranked_item) :=
  let tables := catalog_tables items in
  match table_dependencies fk_list tables with
  | Some dependencies =>
      match topological_sort_tables tables dependencies with
      | Some (sorted_tables, _) => Some (sort_by_rank (rank_items sorted_tables items))
      | None => None
      end
  | None => None
  end.

(* ================================================================== *)
(** * Strings *)
(* ================================================================== *)

Lemma append_cons (x : ascii) (a b : string) : String x a +:+ b = String x (a +:+ b).
Proof. reflexivity. Qed.

Lemma append_nil (b : string) : "" +:+ b = b.
Proof. reflexivity. Qed.

Lemma append_assoc (a b c : string) : (a +:+ b) +:+ c = a +:+ (b +:+ c).
Proof.
  induction a as [|x a IH]; [reflexivity|].
  now rewrite !append_cons, IH.
Qed.

Lemma append_empty_r (a : string) : a +:+ "" = a.
Proof.
  induction a as [|x a IH]; [reflexivity|].
  now rewrite append_cons, IH.
Qed.

Lemma replace_char_app c new a b :
  Py.replace_char c new (a +:+ b) = Py.replace_char c new a +:+ Py.replace_char c new b.
Proof.
  induction a as [|x a IH]; [reflexivity|].
  rewrite append_cons. cbn [Py.replace_char].
  destruct (Ascii.eqb x c); rewrite IH; [now rewrite append_assoc | reflexivity].
Qed.

Lemma filter_chars_app p a b :
  Py.filter_chars p (a +:+ b) = Py.filter_chars p a +:+ Py.filter_chars p b.
Proof.
  induction a as [|x a IH]; [reflexivity|].
  rewrite append_cons. cbn [Py.filter_chars].
  destruct (p x); rewrite IH; reflexivity.
Qed.

Lemma isprintable_not_nul c : Py.isprintable c = true -> Ascii.eqb c Py.nul = false.
Proof.
  destruct (Ascii.eqb_spec c Py.nul) as [->|]; [discriminate | reflexivity].
Qed.

(** Sanitizing keeps exactly the printable characters, in order: the
    removal of NUL in line 51 finds nothing left to remove. *)
Lemma sanitize_sql_value_filter s :
  sanitize_sql_value s = Py.filter_chars Py.isprintable s.
Proof.
  unfold sanitize_sql_value.
  induction s as [|c s IH]; simpl; [reflexivity|].
  destruct (Py.isprintable c) eqn:Hc; simpl; [|exact IH].
  now rewrite (isprintable_not_nul c Hc), IH.
Qed.

Lemma sanitize_sql_value_app a b :
  sanitize_sql_value (a +:+ b) = sanitize_sql_value a +:+ sanitize_sql_value b.
Proof. rewrite !sanitize_sql_value_filter. apply filter_chars_app. Qed.

Lemma sql_unquote_doubled t :
  sql_unquote (Py.replace_char Py.quote "''" t) = Some t.
Proof.
  induction t as [|c t IH]; [reflexivity|].
  cbn [Py.replace_char].
  destruct (Ascii.eqb c Py.quote) eqn:Hc.
  - apply Ascii.eqb_eq in Hc as ->.
    change (sql_unquote (String Py.quote (String Py.quote (Py.replace_char Py.quote "''" t)))
            = Some (String Py.quote t)).
    cbn [sql_unquote]. rewrite Ascii.eqb_refl, IH. reflexivity.
  - cbn [sql_unquote]. rewrite Hc, IH. reflexivity.
Qed.

(* ================================================================== *)
(** * Type mapper *)
(* ================================================================== *)

(** C5: the width boundaries of the type mapper: text of observed length
    255 is VARCHAR(255), 256 is TEXT, 65536 is LONGTEXT; an integer column
    that is not a primary key with observed maximum 2147483647 is INT, with
    2147483648 it is BIGINT; whatever the nullability and the statistic of
    the other kind. *)
Theorem type_mapper_boundaries (ty_text ty_int : string) (nullable : bool)
    (other : option Z) (is_primary : bool)
    (Htext : Py.upper ty_text = "TEXT") (Hint : Py.upper ty_int = "INTEGER") :
  sqlite_to_mysql_type ty_text (Some 255) nullable other is_primary
    = "VARCHAR(255)" +:+ nullability_suffix nullable
  /\ sqlite_to_mysql_type ty_text (Some 256) nullable other is_primary
    = "TEXT" +:+ nullability_suffix nullable
  /\ sqlite_to_mysql_type ty_text (Some 65536) nullable other is_primary
    = "LONGTEXT" +:+ nullability_suffix nullable
  /\ sqlite_to_mysql_type ty_int other nullable (Some 2147483647) false
    = "INT" +:+ nullability_suffix nullable
  /\ sqlite_to_mysql_type ty_int other nullable (Some 2147483648) false
    = "BIGINT" +:+ nullability_suffix nullable.
Proof.
  unfold sqlite_to_mysql_type, mysql_base_type, nullability_suffix.
  rewrite Htext, Hint.
  repeat split; destruct is_primary; reflexivity.
Qed.

Lemma type_mapper_boundaries_witness :
  sqlite_to_mysql_type "Text" (Some 255) true (Some 0) false = "VARCHAR(255) DEFAULT NULL"
  /\ sqlite_to_mysql_type "integer" (Some 0) false (Some 2147483648) false = "BIGINT NOT NULL".
Proof.
  pose proof (type_mapper_boundaries "Text" "integer" true (Some 0) false eq_refl eq_refl)
    as (H1 & _).
  pose proof (type_mapper_boundaries "Text" "integer" false (Some 0) false eq_refl eq_refl)
    as (_ & _ & _ & _ & H5).
  split; [exact H1 | exact H5].
Defined.

(** The mapper on an integer primary key whose observed maximum fits 32
    bits: the range rule of lines 111-113 replaces the BIGINT of line 89. *)
Lemma primary_key_in_int_range (ty : string) (len : option Z) (nullable : bool) (v : Z) :
  Py.upper ty = "INTEGER" -> -2147483648 <= v <= 2147483647 ->
  sqlite_to_mysql_type ty len nullable (Some v) true
    = "INT AUTO_INCREMENT" +:+ nullability_suffix nullable.
Proof.
  intros Hty Hv. unfold sqlite_to_mysql_type, mysql_base_type. rewrite Hty. simpl.
  replace (-2147483648 <=? v) with true by (symmetry; apply Z.leb_le; lia).
  replace (v <=? 2147483647) with true by (symmetry; apply Z.leb_le; lia).
  reflexivity.
Qed.

(** Without a statistic, or with one beyond 32 bits, it is BIGINT. *)
Lemma primary_key_beyond_int_range (ty : string) (len : option Z) (nullable : bool) (v : Z) :
  Py.upper ty = "INTEGER" -> 2147483647 < v ->
  sqlite_to_mysql_type ty len nullable (Some v) true
    = "BIGINT AUTO_INCREMENT" +:+ nullability_suffix nullable
  /\ sqlite_to_mysql_type ty len nullable None true
    = "BIGINT AUTO_INCREMENT" +:+ nullability_suffix nullable.
Proof.
  intros Hty Hv. unfold sqlite_to_mysql_type, mysql_base_type. rewrite Hty. simpl.
  replace (v <=? 2147483647) with false by (symmetry; apply Z.leb_gt; lia).
  rewrite andb_false_r.
  destruct ((-9223372036854775808 <=? v) && (v <=? 9223372036854775807))%Z; split; reflexivity.
Qed.

(** C2, at the failing input: an INTEGER primary key of a table whose
    largest key is 0 (an empty table) is mapped to the 4-byte INT, both by
    the mapper itself and in the column clause built from the catalog row. *)
Theorem primary_key_integer_narrowed_to_int :
  sqlite_to_mysql_type "INTEGER" (Some 0) false (Some 0) true = "INT AUTO_INCREMENT NOT NULL"
  /\ column_clause "id" (build_metadata None (ColumnInfo 0 "id" "INTEGER" 1 None 1))
     = ("`id` INT AUTO_INCREMENT NOT NULL", []).
Proof. split; reflexivity. Qed.

(* ================================================================== *)
(** * Column clauses *)
(* ================================================================== *)

(** Two DEFAULT clauses from a column's metadata: a nullable column with a
    non-empty default text that is not the NULL keyword and, for TEXT,
    DATETIME and DATE columns, whose sanitized text does not match the
    function-call pattern, gets the DEFAULT NULL that ends the mapper's
    clause, then the DEFAULT of the default value (quoted for those three
    types, raw for the others). *)
Lemma column_clause_two_defaults (col_name : string) (meta : metadata) (d : string)
    (Hnullable : md_nullable meta = true)
    (Hdefault : md_default_value meta = Some d)
    (Hnonempty : d <> "")
    (Hnotnull : Py.upper d <> "NULL")
    (Hplain : Py.str_in (md_type meta) ["TEXT"; "DATETIME"; "DATE"] = true ->
              matches_call_pattern (sanitize_sql_value d) = false) :
  let base := mysql_base_type (md_type meta) (Some (md_max_length meta))
                (Some (md_max_value meta)) (md_is_primary meta) in
  sqlite_to_mysql_type (md_type meta) (Some (md_max_length meta)) (md_nullable meta)
      (Some (md_max_value meta)) (md_is_primary meta) = base +:+ " DEFAULT NULL"
  /\ column_clause col_name meta =
       ("`" +:+ escape_sql_identifier col_name +:+ "` " +:+ (base +:+ " DEFAULT NULL")
        +:+ " DEFAULT "
        +:+ (if Py.str_in (md_type meta) ["TEXT"; "DATETIME"; "DATE"]
             then "'" +:+ sanitize_sql_value d +:+ "'" else d), []).
Proof.
  intros base.
  assert (Hmap : sqlite_to_mysql_type (md_type meta) (Some (md_max_length meta))
            (md_nullable meta) (Some (md_max_value meta)) (md_is_primary meta)
          = base +:+ " DEFAULT NULL").
  { unfold sqlite_to_mysql_type. now rewrite Hnullable. }
  split; [exact Hmap|].
  unfold column_clause, default_clause. rewrite Hmap, Hdefault.
  apply String.eqb_neq in Hnonempty, Hnotnull. rewrite Hnonempty, Hnotnull.
  destruct (Py.str_in (md_type meta) ["TEXT"; "DATETIME"; "DATE"]) eqn:Hin.
  - rewrite (Hplain eq_refl). reflexivity.
  - reflexivity.
Qed.

(** A column that is not queried has the statistics 0 whatever the answer
    would have been. *)
Lemma build_metadata_unqueried (probe : option Z) (col : column_info) :
  queried (column_type col) = false ->
  build_metadata probe col = build_metadata None col.
Proof.
  unfold queried, column_type, build_metadata. intros H.
  apply orb_false_iff in H as [Htext Hint].
  rewrite Htext, Hint. reflexivity.
Qed.

(** C10, at the failing input: the nullable INTEGER column [qty] with the
    default 1, in a table where one row holds the text abc in it.  The
    statistic of line 241 is then that text, the comparison of line 112
    raises TypeError, and no column clause is made: the run stops before
    CREATE TABLE is written.  With an integer for the largest value the
    same column gets its two DEFAULT clauses. *)
Theorem integer_column_text_maximum_no_clause :
  catalog_column_clause (MaxText "abc") (ColumnInfo 1 "qty" "INTEGER" 0 (Some "1") 0) = None
  /\ catalog_column_clause (MaxInt 7) (ColumnInfo 1 "qty" "INTEGER" 0 (Some "1") 0)
     = Some ("`qty` INT DEFAULT NULL DEFAULT 1", []).
Proof. split; reflexivity. Qed.

(* ================================================================== *)
(** * Value encoder *)
(* ================================================================== *)

(** In the literals of a row, the one at the position of a NULL value is
    NULL. *)
Lemma encode_values_null_at (cfg : config) (env : os_env) (item_name : string)
    (columns_info : list column_info) (column_metadata : gmap string metadata)
    (offset : Z) (row : list value) :
  forall i files lits files' logs k,
    encode_values cfg env item_name columns_info column_metadata offset i row files
      = Some (lits, files', logs) ->
    row !! k = Some VNone -> lits !! k = Some "NULL".
Proof.
  induction row as [|v row IH]; intros i files lits files' logs k Henc Hk; [discriminate Hk|].
  cbn [encode_values] in Henc.
  destruct (columns_info !! i) as [col|]; [|discriminate Henc]. cbn [mbind option_bind] in Henc.
  destruct (column_metadata !! ci_name col) as [meta|]; [|discriminate Henc].
  cbn [mbind option_bind] in Henc.
  destruct (encode_value _ _ _ _ _ _ _ _ v) as [[lit files1] log1] eqn:Hv.
  destruct (encode_values _ _ _ _ _ _ _ row files1) as [[[lits' files2] log2]|] eqn:Hrest;
    [|discriminate Henc].
  injection Henc as <- <- <-.
  destruct k as [|k]; cbn in Hk |- *.
  - injection Hk as ->. cbn in Hv. injection Hv as <- _ _. reflexivity.
  - eapply IH; eassumption.
Qed.

(** C9: a NULL source value is encoded as the literal NULL whatever the
    declared type of its column and whatever the configuration, and nothing
    is written or logged for it; so in the value tuple of every row, each
    position that holds NULL in the source holds the literal NULL. *)
Theorem null_value_literal (cfg : config) (env : os_env) (item_name : string)
    (columns_info : list column_info) (column_metadata : gmap string metadata)
    (offset : Z) (row : list value) (lits : list string) (files files' : file_store)
    (logs : list log_record) (k : nat)
    (Hrow : encode_values cfg env item_name columns_info column_metadata offset 0 row files
            = Some (lits, files', logs))
    (Hnull : row !! k = Some VNone) :
  (forall col_name col_type i store,
     encode_value cfg env item_name col_name col_type offset i store VNone
       = ("NULL", store, []))
  /\ lits !! k = Some "NULL".
Proof.
  split; [reflexivity|].
  eapply encode_values_null_at; eassumption.
Qed.

Lemma null_value_literal_witness :
  encode_value (Config "both" 1000 1048576 None false "out.sql")
    (OsEnv (fun _ => true) (fun _ => true) (fun p _ => p) (fun p => p) (fun _ => false) (fun _ => None))
    "t" "payload" "BLOB" 0 1 ∅ VNone = ("NULL", ∅, [])
  /\ ["7"; "NULL"; "NULL"] !! 2%nat = Some "NULL".
Proof.
  destruct (null_value_literal (Config "both" 1000 1048576 None false "out.sql")
              (OsEnv (fun _ => true) (fun _ => true) (fun p _ => p) (fun p => p)
                     (fun _ => false) (fun _ => None))
              "t"
              [ColumnInfo 0 "id" "INTEGER" 1 None 1; ColumnInfo 1 "payload" "BLOB" 0 None 0;
               ColumnInfo 2 "note" "TEXT" 0 None 0]
              (build_column_metadata (fun _ => None)
                 [ColumnInfo 0 "id" "INTEGER" 1 None 1; ColumnInfo 1 "payload" "BLOB" 0 None 0;
                  ColumnInfo 2 "note" "TEXT" 0 None 0])
              0 [VInt 7; VNone; VNone] ["7"; "NULL"; "NULL"] ∅ ∅ [] 2%nat)
    as [Hvalue Hrow].
  - vm_compute. reflexivity.
  - reflexivity.
  - split; [apply Hvalue | exact Hrow].
Defined.

Lemma filter_chars_ext (p q : ascii -> bool) (s : string) :
  (forall c, p c = q c) -> Py.filter_chars p s = Py.filter_chars q s.
Proof.
  intros Hpq. induction s as [|c s IH]; [reflexivity|].
  cbn [Py.filter_chars]. now rewrite Hpq, IH.
Qed.

(** The characters [str.isprintable] refuses, with NUL among them, by
    code point. *)
Lemma isprintable_code_points (c : ascii) :
  Py.isprintable c && negb (Ascii.eqb c Py.nul)
  = negb (let n := nat_of_ascii c in
          ((n <? 32) || ((126 <? n) && (n <? 161)) || (n =? 173))%nat).
Proof. destruct c as [[] [] [] [] [] [] [] []]; reflexivity. Qed.

(** C8: a string value is encoded, whatever the declared type, as a
    single-quoted literal whose body is the value without its non-printable
    characters and NULs, every quote doubled.  The characters removed are
    those of code points 0 to 31, 127 to 160 and 173 (the control
    characters, the no-break space and the soft hyphen); every other
    character up to U+00FF is kept, in order: of the text caf, e acute,
    TAB, soft hyphen and an exclamation mark, it is the TAB and the soft
    hyphen that go.  The body reads back (a doubled quote as one quote,
    never meeting a lone quote) as the sanitized value; around a quote of
    the value, the body has the escaped text before it, the doubled quote,
    the escaped text after it. *)
Theorem string_value_literal (cfg : config) (env : os_env) (item_name col_name col_type : string)
    (offset : Z) (i : nat) (files : file_store) (s s1 s2 : string) :
  let body := Py.replace_char Py.quote "''" (sanitize_sql_value s) in
  encode_value cfg env item_name col_name col_type offset i files (VStr s)
    = ("'" +:+ body +:+ "'", files, [])
  /\ sanitize_sql_value s
     = Py.filter_chars (fun c => Py.isprintable c && negb (Ascii.eqb c Py.nul)) s
  /\ sanitize_sql_value s
     = Py.filter_chars
         (fun c => negb (let n := nat_of_ascii c in
                         ((n <? 32) || ((126 <? n) && (n <? 161)) || (n =? 173))%nat)) s
  /\ sanitize_sql_value ("caf" +:+ String "233" (String "009" (String "173" "!")))
     = "caf" +:+ String "233" "!"
  /\ sql_unquote body = Some (sanitize_sql_value s)
  /\ quoted_literal (s1 +:+ "'" +:+ s2)
     = "'" +:+ (Py.replace_char Py.quote "''" (sanitize_sql_value s1) +:+ "''"
                +:+ Py.replace_char Py.quote "''" (sanitize_sql_value s2)) +:+ "'".
Proof.
  intros body.
  assert (Hfilter : sanitize_sql_value s
            = Py.filter_chars (fun c => Py.isprintable c && negb (Ascii.eqb c Py.nul)) s).
  { rewrite sanitize_sql_value_filter. apply filter_chars_ext. intros c.
    destruct (Py.isprintable c) eqn:Hc; [|reflexivity].
    now rewrite (isprintable_not_nul c Hc). }
  split; [reflexivity|]. split; [exact Hfilter|]. split; [|split; [|split]].
  - rewrite Hfilter. apply filter_chars_ext, isprintable_code_points.
  - reflexivity.
  - apply sql_unquote_doubled.
  - unfold quoted_literal.
    rewrite !sanitize_sql_value_app, !replace_char_app. reflexivity.
Qed.

Lemma hex_of_byte_decodes (x : byte) :
  hex_value (hex_digit (Byte.to_N x / 16)) = Some (Byte.to_N x / 16)%N
  /\ hex_value (hex_digit (Byte.to_N x mod 16)) = Some (Byte.to_N x mod 16)%N
  /\ Byte.of_N (16 * (Byte.to_N x / 16) + Byte.to_N x mod 16) = Some x.
Proof. destruct x; repeat split; reflexivity. Qed.

(** Hexadecimal encoding followed by decoding is the identity. *)
Lemma unhex_bytes_hex (b : list byte) : unhex (bytes_hex b) = Some b.
Proof.
  induction b as [|x b IH]; [reflexivity|].
  destruct (hex_of_byte_decodes x) as (Hhi & Hlo & Hx).
  change (bytes_hex (x :: b))
    with (String (hex_digit (Byte.to_N x / 16))
            (String (hex_digit (Byte.to_N x mod 16)) (bytes_hex b))).
  cbn [unhex]. rewrite Hhi, Hlo. cbn [mbind option_bind]. rewrite Hx.
  cbn [mbind option_bind]. now rewrite IH.
Qed.

(** C7, as the code has it: a binary value of a column declared BLOB whose
    length is at most the inline threshold is encoded as UNHEX of its
    hexadecimal text, which decodes to the value; nothing is written. *)
Theorem inline_blob_literal (cfg : config) (env : os_env) (item_name col_name : string)
    (offset : Z) (i : nat) (files : file_store) (b : list byte)
    (Hsmall : Z.of_nat (length b) <= max_blob_size cfg) :
  encode_value cfg env item_name col_name "BLOB" offset i files (VBytes b)
    = ("UNHEX('" +:+ bytes_hex b +:+ "')", files, [])
  /\ unhex (bytes_hex b) = Some b.
Proof.
  split; [|apply unhex_bytes_hex].
  unfold encode_value. cbn [String.eqb Ascii.eqb Bool.eqb].
  replace (max_blob_size cfg <? Z.of_nat (length b)) with false
    by (symmetry; apply Z.ltb_ge; lia).
  destruct (blob_dir cfg) as [dir|]; [rewrite andb_false_r|]; reflexivity.
Qed.

Lemma inline_blob_literal_witness :
  encode_value (Config "both" 1000 1048576 None false "out.sql")
    (OsEnv (fun _ => true) (fun _ => true) (fun p _ => p) (fun p => p) (fun _ => false) (fun _ => None))
    "t" "data" "BLOB" 0 1 ∅ (VBytes [x00; xff; x1a])
  = ("UNHEX('00ff1a')", ∅, []).
Proof.
  refine (proj1 (inline_blob_literal (Config "both" 1000 1048576 None false "out.sql")
                   _ "t" "data" 0 1 ∅ [x00; xff; x1a] _)).
  simpl. lia.
Defined.

(** C7 as stated fails: a one-byte binary value stored in a column
    declared TEXT is not encoded as UNHEX but as the quoted text of its
    [repr]. *)
Lemma inline_blob_literal_not_for_text_column :
  ~ (forall cfg env item_name col_name col_type offset i files b,
       Z.of_nat (length b) <= max_blob_size cfg ->
       exists h,
         (encode_value cfg env item_name col_name col_type offset i files (VBytes b)).1.1
           = "UNHEX('" +:+ h +:+ "')"
         /\ unhex h = Some b).
Proof.
  intros H.
  destruct (H (Config "both" 1000 1048576 None false "out.sql")
              (OsEnv (fun _ => true) (fun _ => true) (fun p _ => p) (fun p => p) (fun _ => false) (fun _ => None))
              "t" "data" "TEXT" 0 1%nat ∅ [x01]) as (h & Hlit & _).
  - simpl. lia.
  - vm_compute in Hlit. discriminate Hlit.
Qed.




(* ================================================================== *)
(** * Paging and flushing *)
(* ================================================================== *)







Section TableExportFacts.

Variable cfg : config.
Variable env : os_env.
Variable item_name : string.
Variable columns_info : list column_info.
Variable column_metadata : gmap string metadata.

Hypothesis metadata_known :
  forall col, col ∈ columns_info -> is_Some (column_metadata !! ci_name col).

(** A row no longer than the column list is encoded without an exception,
    into one literal per value. *)
Lemma encode_values_fits (offset : Z) (row : list value) :
  forall i files, (i + length row <= length columns_info)%nat ->
  exists lits files' logs,
    encode_values cfg env item_name columns_info column_metadata offset i row files
      = Some (lits, files', logs)
    /\ length lits = length row.
Proof.
  induction row as [|v row IH]; intros i files Hfit.
  - exists [], files, []. split; reflexivity.
  - cbn [encode_values]. simpl in Hfit.
    destruct (lookup_lt_is_Some_2 columns_info i) as [col Hcol]; [lia|].
    rewrite Hcol. cbn [mbind option_bind].
    destruct (metadata_known col) as [meta Hmeta]; [eapply list_elem_of_lookup_2, Hcol|].
    rewrite Hmeta. cbn [mbind option_bind].
    destruct (encode_value _ _ _ _ _ _ _ _ _) as [[lit files1] log1].
    destruct (IH (S i) files1) as (lits & files2 & log2 & Hrest & Hlen); [lia|].
    rewrite Hrest. exists (lit :: lits), files2, (log1 ++ log2).
    split; [reflexivity | simpl; now rewrite Hlen].
Qed.



Hypothesis never_interrupted : forall offset, ctrl_c_pressed env offset = false.


End TableExportFacts.

Lemma build_column_metadata_known (probe : string -> option Z) (columns_info : list column_info) :
  forall col, col ∈ columns_info ->
  is_Some (build_column_metadata probe columns_info !! ci_name col).
Proof.
  unfold build_column_metadata.
  assert (Hgen : forall cols (m : gmap string metadata) k,
            is_Some (m !! k) \/ (exists col, col ∈ cols /\ ci_name col = k) ->
            is_Some (foldl (fun m col => <[ci_name col := build_metadata (probe (ci_name col)) col]> m)
                       m cols !! k)).
  { induction cols as [|c cols IH]; intros m k [Hm|(col & Hcol & Hk)]; cbn [foldl].
    - exact Hm.
    - inversion Hcol.
    - apply IH. left. rewrite lookup_insert_is_Some'. now right.
    - apply IH. apply elem_of_cons in Hcol as [->|Hcol].
      + left. rewrite Hk, lookup_insert_eq. eauto.
      + right. eauto. }
  intros col Hcol. apply Hgen. right. eauto.
Qed.




(** A row with more values than [PRAGMA table_info] lists columns, as in
    a table with a generated column: line 359 raises IndexError on it,
    outside the [try] of line 362, and the export of the table ends
    there. *)
Example wide_row_raises :
  export_table_data (Config "data" 1000 1048576 None false "out.sql")
    (OsEnv (fun _ => true) (fun _ => true) (fun p _ => p) (fun p => p) (fun _ => false) (fun _ => None))
    "t" [ColumnInfo 0 "id" "INTEGER" 1 None 1]
    (build_column_metadata (fun _ => Some 1) [ColumnInfo 0 "id" "INTEGER" 1 None 1])
    1 [[VInt 1; VInt 2]] (RunState [] [] ∅ []) = Raised.
Proof. vm_compute. reflexivity. Qed.

(** X16: with page size 0 every fetch is empty and the offset never
    moves: the loop of lines 349-416 does not end, whatever the number of
    iterations allowed. *)
Lemma zero_page_size_never_finishes (cfg : config) (env : os_env) (item_name : string)
    (columns_info : list column_info) (column_metadata : gmap string metadata)
    (rows : list (list value)) :
  batch_size cfg = 0 -> (0 < length rows)%nat ->
  (forall offset, ctrl_c_pressed env offset = false) ->
  forall fuel st,
    export_pages cfg env item_name columns_info column_metadata fuel rows 0 st = OutOfFuel.
Proof.
  intros HB Hrows Hrun. induction fuel as [|fuel IH]; intros st; cbn [export_pages];
    replace (0 <? Z.of_nat (length rows)) with true by (symmetry; apply Z.ltb_lt; lia).
  - reflexivity.
  - rewrite Hrun, HB. unfold sql_limit_offset. cbn. apply IH.
Qed.

(* ================================================================== *)
(** * Dependency resolver *)
(* ================================================================== *)

Lemma in_degree_at_insert (d : gmap string Z) (k t : string) (v : Z) :
  in_degree_at (<[k := v]> d) t = if decide (k = t) then v else in_degree_at d t.
Proof.
  unfold in_degree_at. rewrite lookup_insert. now destruct (decide (k = t)).
Qed.

Lemma graph_at_insert (g : gmap string (list string)) (k t : string) (v : list string) :
  graph_at (<[k := v]> g) t = if decide (k = t) then v else graph_at g t.
Proof.
  unfold graph_at. rewrite lookup_insert. now destruct (decide (k = t)).
Qed.

Lemma init_in_degree_zero (tables : list string) (t : string) :
  in_degree_at (init_in_degree tables) t = 0.
Proof.
  unfold init_in_degree.
  assert (Hgen : forall (d : gmap string Z), in_degree_at d t = 0 ->
            in_degree_at (foldl (fun d t => <[t := 0]> d) d tables) t = 0).
  { induction tables as [|x tables IH]; intros d Hd; [exact Hd|].
    cbn [foldl]. apply IH. rewrite in_degree_at_insert. now destruct (decide (x = t)). }
  apply Hgen. reflexivity.
Qed.

Lemma build_graph_edges (tables : list string) (foreign_keys : fk_dict) :
  build_graph tables foreign_keys
  = foldl add_dep (∅, init_in_degree tables) (edges foreign_keys).
Proof.
  unfold build_graph, edges. generalize (∅ : gmap string (list string), init_in_degree tables).
  induction foreign_keys as [|entry fks IH]; intros st; [reflexivity|].
  rewrite bind_cons, foldl_app, foldl_fmap. cbn [foldl]. apply IH.
Qed.

(** What lines 55-65 compute: the in-degree of a table is the number of
    its foreign keys, its neighbours are the tables with a foreign key to
    it, once per key and in the order of the dict. *)
Lemma foldl_add_dep_spec (es : list (string * string)) :
  forall st t,
    in_degree_at (foldl add_dep st es).2 t
      = in_degree_at st.2 t + Z.of_nat (length (filter (fun e => e.1 = t) es))
    /\ graph_at (foldl add_dep st es).1 t
      = graph_at st.1 t ++ (filter (fun e => e.2 = t) es).*1.
Proof.
  induction es as [|e es IH]; intros st t.
  - cbn. rewrite app_nil_r. split; lia || reflexivity.
  - cbn [foldl]. destruct (IH (add_dep st e) t) as [Hd Hg]. rewrite Hd, Hg.
    unfold add_dep. cbn [fst snd].
    rewrite in_degree_at_insert, graph_at_insert, !filter_cons.
    split.
    + destruct (decide (e.1 = t)) as [->|]; cbn [length]; lia.
    + destruct (decide (e.2 = t)) as [->|]; [|reflexivity].
      rewrite fmap_cons, <- app_assoc. reflexivity.
Qed.

Lemma edges_key (foreign_keys : fk_dict) (t r : string) :
  (t, r) ∈ edges foreign_keys -> t ∈ foreign_keys.*1.
Proof.
  unfold edges. rewrite list_elem_of_bind. intros (entry & Hin & Hentry).
  apply list_elem_of_fmap in Hin as (fk & Heq & _). inversion Heq; subst.
  now apply list_elem_of_fmap_2.
Qed.

Lemma occ_app (t : string) (l k : list string) : occ t (l ++ k) = (occ t l + occ t k)%nat.
Proof. unfold occ. now rewrite filter_app, length_app. Qed.

Lemma occ_dependents (es : list (string * string)) (t r : string) :
  occ t (dependents es r) = length (filter (fun e => e.1 = t /\ e.2 = r) es).
Proof.
  unfold occ, dependents. induction es as [|e es IH]; [reflexivity|].
  rewrite !filter_cons.
  destruct (decide (e.2 = r)) as [Hr|Hr].
  - rewrite fmap_cons, filter_cons.
    destruct (decide (e.1 = t)) as [Ht|Ht].
    + rewrite decide_True by done. cbn [length]. now rewrite IH.
    + rewrite decide_False by tauto. exact IH.
  - rewrite decide_False by tauto. exact IH.
Qed.

Lemma pending_snoc (es : list (string * string)) (sorted : list string) (r t : string) :
  r ∉ sorted ->
  pending es sorted t = (pending es (sorted ++ [r]) t + occ t (dependents es r))%nat.
Proof.
  intros Hr. rewrite occ_dependents. unfold pending.
  induction es as [|e es IH]; [reflexivity|].
  rewrite !filter_cons.
  destruct (decide (e.1 = t)) as [Ht|Ht].
  - destruct (decide (e.2 = r)) as [Her|Her].
    + rewrite decide_True by (split; [done | congruence]).
      rewrite decide_False by (rewrite elem_of_app, list_elem_of_singleton; tauto).
      rewrite decide_True by done. cbn [length]. lia.
    + destruct (decide (e.2 ∈ sorted)) as [Hin|Hin].
      * rewrite decide_False by tauto.
        rewrite decide_False by (rewrite elem_of_app; tauto).
        rewrite decide_False by tauto. exact IH.
      * rewrite decide_True by tauto.
        rewrite decide_True by (rewrite elem_of_app, list_elem_of_singleton; tauto).
        rewrite decide_False by tauto. cbn [length]. lia.
  - rewrite !decide_False by tauto. exact IH.
Qed.

Lemma pending_zero (es : list (string * string)) (sorted : list string) (t r : string) :
  pending es sorted t = 0%nat -> (t, r) ∈ es -> r ∈ sorted.
Proof.
  unfold pending. intros Hzero Hin. apply length_zero_iff_nil in Hzero.
  destruct (decide (r ∈ sorted)) as [|Hout]; [done|].
  exfalso. eapply (filter_nil_not_elem_of _ _ (t, r)); [exact Hzero | | exact Hin].
  split; [reflexivity | exact Hout].
Qed.

Lemma pending_zero_iff (es : list (string * string)) (sorted : list string) (t : string) :
  pending es sorted t = 0%nat <-> forall r, (t, r) ∈ es -> r ∈ sorted.
Proof.
  split; [intros Hz r; now apply pending_zero|].
  intros Hall. unfold pending.
  destruct (filter _ es) as [|e l] eqn:Hf; [reflexivity|].
  assert (He : e ∈ filter (fun e => e.1 = t /\ e.2 ∉ sorted) es) by (rewrite Hf; left).
  apply list_elem_of_filter in He as [[Ht Hout] Hin].
  destruct e as [t' r]; cbn in *; subst. now destruct Hout; apply Hall.
Qed.

Lemma visited_bound (es : list (string * string)) (sorted p s : list string) (r n : string) :
  r ∉ sorted -> dependents es r = p ++ n :: s ->
  (occ n p + 1 <= pending es sorted n)%nat.
Proof.
  intros Hr Hsplit. rewrite (pending_snoc es sorted r n Hr), Hsplit.
  rewrite occ_app. unfold occ at 3. rewrite filter_cons, decide_True by done.
  cbn [length]. lia.
Qed.

Lemma occ_snoc (t n : string) (p : list string) :
  occ t (p ++ [n]) = if decide (n = t) then S (occ t p) else occ t p.
Proof.
  rewrite occ_app. unfold occ at 2. rewrite filter_cons.
  destruct (decide (n = t)); cbn [length filter]; rewrite ?filter_nil; cbn [length]; lia.
Qed.

(** One neighbour visited (lines 76-78) keeps the inner invariant. *)
Lemma relax_step (es : list (string * string)) (tables sorted p s : list string)
    (r n : string) (st : gmap string Z * list string) :
  r ∉ sorted -> n ∈ tables -> dependents es r = p ++ n :: s ->
  relax_inv es tables sorted r p st ->
  relax_inv es tables sorted r (p ++ [n]) (relax st n).
Proof.
  intros Hr Hn Hsplit (Hdeg & Hnodup & Hq & Hzero).
  pose proof (visited_bound es sorted p s r n Hr Hsplit) as Hbound.
  pose proof (Hdeg n) as Hdn.
  assert (Hstep : forall t, in_degree_at (relax st n).1 t
            = Z.of_nat (pending es sorted t) - Z.of_nat (occ t (p ++ [n]))).
  { intros t. unfold relax. cbn [fst]. rewrite in_degree_at_insert, occ_snoc.
    destruct (decide (n = t)) as [<-|Hne]; [lia | apply Hdeg]. }
  assert (Hfresh : in_degree_at st.1 n <> 0 -> n ∉ sorted ++ r :: st.2).
  { intros Hnz Hin. now apply Hzero in Hin. }
  unfold relax_inv. split; [exact Hstep|].
  pose proof (Hstep n) as Hn'. rewrite occ_snoc, decide_True in Hn' by done.
  unfold relax in *. cbn [fst snd] in *.
  destruct (Z.eqb_spec (in_degree_at (<[n := in_degree_at st.1 n - 1]> st.1) n) 0) as [Hz|Hnz].
  - assert (Hout : n ∉ sorted ++ r :: st.2) by (apply Hfresh; lia).
    repeat split.
    + change (sorted ++ r :: st.2 ++ [n]) with (sorted ++ (r :: st.2) ++ [n]).
      rewrite app_assoc. apply NoDup_app. repeat split; [exact Hnodup | | apply NoDup_singleton].
      intros x Hx Hxn. apply list_elem_of_singleton in Hxn as ->. contradiction.
    + intros t Ht. apply elem_of_app in Ht as [Ht|Ht]; [now apply Hq|].
      now apply list_elem_of_singleton in Ht as ->.
    + intros Hin. destruct (decide (n = t)) as [<-|Hne]; [exact Hz|].
      rewrite in_degree_at_insert, decide_False by done. apply Hzero; [done|].
      change (sorted ++ r :: st.2 ++ [n]) with (sorted ++ (r :: st.2) ++ [n]) in Hin.
      rewrite app_assoc, elem_of_app, list_elem_of_singleton in Hin.
      destruct Hin as [Hin|Heq]; [exact Hin | congruence].
    + intros Hzt. change (sorted ++ r :: st.2 ++ [n]) with (sorted ++ (r :: st.2) ++ [n]).
      rewrite app_assoc, elem_of_app, list_elem_of_singleton.
      destruct (decide (n = t)) as [<-|Hne]; [now right|]. left.
      rewrite in_degree_at_insert, decide_False in Hzt by done. now apply Hzero.
  - repeat split; [exact Hnodup | exact Hq | |].
    + intros Hin. destruct (decide (n = t)) as [<-|Hne].
      * apply Hzero in Hin; [lia | done].
      * rewrite in_degree_at_insert, decide_False by done. now apply Hzero.
    + intros Hzt. destruct (decide (n = t)) as [<-|Hne]; [contradiction|].
      rewrite in_degree_at_insert, decide_False in Hzt by done. now apply Hzero.
Qed.

(** All the neighbours of the popped table visited. *)
Lemma relax_all (es : list (string * string)) (tables sorted : list string) (r : string) :
  r ∉ sorted -> (forall n, n ∈ dependents es r -> n ∈ tables) ->
  forall s p st,
    dependents es r = p ++ s ->
    relax_inv es tables sorted r p st ->
    relax_inv es tables sorted r (p ++ s) (foldl relax st s).
Proof.
  intros Hr Hdep. induction s as [|n s IH]; intros p st Hsplit Hinv.
  - now rewrite app_nil_r.
  - cbn [foldl]. rewrite cons_middle, app_assoc. apply IH.
    + now rewrite <- app_assoc.
    + apply (relax_step es tables sorted p s r n); try done.
      apply Hdep. rewrite Hsplit, elem_of_app, elem_of_cons. tauto.
Qed.

(** One pass through the loop of lines 71-78 keeps the outer invariant. *)
Lemma kahn_step (es : list (string * string)) (tables : list string)
    (d : gmap string Z) (r : string) (q sorted : list string) :
  (forall n, n ∈ dependents es r -> n ∈ tables) ->
  kahn_inv es tables d (r :: q) sorted ->
  kahn_inv es tables (foldl relax (d, q) (dependents es r)).1
           (foldl relax (d, q) (dependents es r)).2 (sorted ++ [r]).
Proof.
  intros Hdep (Hdeg & Hnodup & Hsub & Hzero & Hord).
  assert (Hr : r ∉ sorted).
  { apply NoDup_app in Hnodup as (_ & Hdisj & _). intros Hin.
    apply (Hdisj r Hin). left. }
  assert (Hrt : r ∈ tables) by (apply Hsub; rewrite elem_of_app, elem_of_cons; tauto).
  assert (Hrz : pending es sorted r = 0%nat).
  { pose proof (proj1 (Hzero r Hrt)) as Hz. rewrite Hdeg in Hz.
    apply Nat2Z.inj, Hz. rewrite elem_of_app, elem_of_cons. tauto. }
  destruct (relax_all es tables sorted r Hr Hdep (dependents es r) [] (d, q) eq_refl)
    as (Hdeg' & Hnodup' & Hq' & Hzero').
  { repeat split; cbn [fst snd]; try done.
    - intros t. rewrite Hdeg. unfold occ. cbn. lia.
    - intros t Ht. apply Hsub. rewrite elem_of_app, elem_of_cons. tauto.
    - now apply Hzero.
    - now apply Hzero. }
  cbn [app] in Hdeg'. set (st' := foldl relax (d, q) (dependents es r)) in *.
  repeat split.
  - intros t. rewrite Hdeg', (pending_snoc es sorted r t Hr). lia.
  - now rewrite <- app_assoc.
  - intros t. rewrite <- app_assoc. cbn [app]. rewrite elem_of_app, elem_of_cons.
    intros [Ht|[->|Ht]]; [| done | now apply Hq'].
    apply Hsub. rewrite elem_of_app. tauto.
  - rewrite <- app_assoc. now apply Hzero'.
  - rewrite <- app_assoc. now apply Hzero'.
  - intros j t r' Hj Hedge. apply lookup_snoc_Some in Hj as [[Hlt Hj]|[-> <-]].
    + destruct (Hord j t r' Hj Hedge) as (i & Hi & Hlook).
      exists i. split; [exact Hi|]. rewrite lookup_app_l; [exact Hlook | lia].
    + pose proof (pending_zero es sorted r r' Hrz Hedge) as Hin.
      apply list_elem_of_lookup_1 in Hin as [i Hi].
      exists i. pose proof (lookup_lt_Some _ _ _ Hi).
      split; [lia|]. rewrite lookup_app_l; [exact Hi | lia].
Qed.

Lemma NoDup_subset_length (l k : list string) :
  NoDup l -> (forall x, x ∈ l -> x ∈ k) -> (length l <= length k)%nat.
Proof. intros Hl Hsub. apply submseteq_length, NoDup_submseteq; assumption. Qed.

(** The loop ends within [length tables - length sorted] passes, in a
    state that satisfies the invariant with an empty queue. *)
Lemma kahn_loop_inv (es : list (string * string)) (tables : list string)
    (g : gmap string (list string)) :
  (forall r, graph_at g r = dependents es r) ->
  (forall t r, (t, r) ∈ es -> t ∈ tables) ->
  forall fuel d q sorted,
    kahn_inv es tables d q sorted ->
    (length tables <= fuel + length sorted)%nat ->
    exists result d',
      kahn_loop fuel g d q sorted = Some result /\ kahn_inv es tables d' [] result.
Proof.
  intros Hg Hkeys. induction fuel as [|fuel IH]; intros d q sorted Hinv Hfuel.
  - destruct q as [|r q]; [exists sorted, d; split; [reflexivity | exact Hinv]|].
    destruct Hinv as (_ & Hnodup & Hsub & _).
    pose proof (NoDup_subset_length _ _ Hnodup Hsub) as Hlen.
    rewrite length_app in Hlen. cbn [length] in Hlen. lia.
  - destruct q as [|r q]; [exists sorted, d; split; [reflexivity | exact Hinv]|].
    cbn [kahn_loop]. rewrite Hg.
    assert (Hdep : forall n, n ∈ dependents es r -> n ∈ tables).
    { intros n Hn. unfold dependents in Hn.
      apply list_elem_of_fmap in Hn as ([t r'] & -> & Hin).
      apply list_elem_of_filter in Hin as [_ Hin]. eapply Hkeys, Hin. }
    pose proof (kahn_step es tables d r q sorted Hdep Hinv) as Hnext.
    destruct (foldl relax (d, q) (dependents es r)) as [d' q'].
    apply (IH d' q' (sorted ++ [r]) Hnext).
    rewrite length_app. cbn [length]. lia.
Qed.

(** Kahn's pass on the tables and the dict of the run: it ends, with a
    duplicate-free list of tables in which every table stands after the
    tables it references, and which holds exactly the tables all of whose
    referenced tables it holds. *)
Lemma kahn_sorted_spec (tables : list string) (foreign_keys : fk_dict) :
  NoDup tables -> keyed_by tables foreign_keys ->
  exists sorted,
    kahn_sorted tables foreign_keys = Some sorted
    /\ NoDup sorted
    /\ (forall t, t ∈ sorted -> t ∈ tables)
    /\ (forall t, t ∈ tables ->
          (t ∈ sorted <-> forall r, references foreign_keys t r -> r ∈ sorted))
    /\ ordered (edges foreign_keys) sorted.
Proof.
  intros Hnodup Hkeyed. unfold kahn_sorted. rewrite build_graph_edges.
  set (es := edges foreign_keys).
  pose proof (foldl_add_dep_spec es (∅, init_in_degree tables)) as Hspec.
  destruct (foldl add_dep (∅, init_in_degree tables) es) as [g d]. cbn [fst snd] in Hspec.
  assert (Hdeg : forall t, in_degree_at d t = Z.of_nat (pending es [] t)).
  { intros t. destruct (Hspec t) as [-> _]. rewrite init_in_degree_zero. unfold pending.
    rewrite (list_filter_iff (fun e => e.1 = t) (fun e => e.1 = t /\ e.2 ∉ [])); [lia|].
    intros e. split; [|tauto]. intros He. split; [exact He | apply not_elem_of_nil]. }
  destruct (kahn_loop_inv es tables g) with
      (fuel := (length tables + length foreign_keys)%nat) (d := d)
      (q := filter (fun t => in_degree_at d t = 0) tables) (sorted := @nil string)
    as (sorted & d' & Hrun & Hdeg' & Hnd & Hsub & Hzero & Hord).
  - intros r. destruct (Hspec r) as [_ ->]. reflexivity.
  - intros t r Hin. eapply Hkeyed, edges_key, Hin.
  - repeat split; cbn [app].
    + exact Hdeg.
    + now apply NoDup_filter.
    + intros t Ht. now apply list_elem_of_filter in Ht as [_ Ht].
    + intros Ht. now apply list_elem_of_filter in Ht as [Ht _].
    + intros Hz. now apply list_elem_of_filter.
    + intros j t r Hj. discriminate Hj.
  - cbn [length]. lia.
  - exists sorted. rewrite app_nil_r in *. repeat split; try done.
    + intros Hin. apply (pending_zero_iff es), Nat2Z.inj. rewrite <- Hdeg'. now apply Hzero.
    + intros Hall. apply Hzero; [done|]. rewrite Hdeg'.
      apply (pending_zero_iff es) in Hall. now rewrite Hall.
Qed.

(** ** Kahn's pass ends on every input *)

Lemma positives_insert_le (keys : list string) (d : gmap string Z) (n : string) (v : Z) :
  v <= in_degree_at d n -> (positives keys (<[n := v]> d) <= positives keys d)%nat.
Proof.
  intros Hv. unfold positives. induction keys as [|k keys IH]; [reflexivity|].
  rewrite !filter_cons, in_degree_at_insert.
  destruct (decide (n = k)) as [<-|Hne].
  - destruct (decide (0 < v)) as [Hpos|Hnpos].
    + rewrite decide_True by lia. cbn [length]. lia.
    + destruct (decide (0 < in_degree_at d n)); cbn [length]; lia.
  - destruct (decide (0 < in_degree_at d k)); cbn [length]; lia.
Qed.

Lemma positives_insert_lt (keys : list string) (d : gmap string Z) (n : string) (v : Z) :
  n ∈ keys -> 0 < in_degree_at d n -> v <= 0 ->
  (positives keys (<[n := v]> d) + 1 <= positives keys d)%nat.
Proof.
  intros Hin Hpos Hv. induction keys as [|k keys IH]; [inversion Hin|].
  pose proof (positives_insert_le keys d n v ltac:(lia)) as Hle.
  unfold positives in *. rewrite !filter_cons, in_degree_at_insert.
  destruct (decide (n = k)) as [<-|Hne].
  - rewrite decide_False by lia. rewrite decide_True by lia. cbn [length]. lia.
  - apply elem_of_cons in Hin as [->|Hin]; [contradiction|]. specialize (IH Hin).
    destruct (decide (0 < in_degree_at d k)); cbn [length]; lia.
Qed.

Lemma relax_measure (keys : list string) (ns : list string) :
  forall st : gmap string Z * list string,
    (forall k, 0 < in_degree_at st.1 k -> k ∈ keys) ->
    (forall k, 0 < in_degree_at (foldl relax st ns).1 k -> k ∈ keys)
    /\ (length (foldl relax st ns).2 + positives keys (foldl relax st ns).1
        <= length st.2 + positives keys st.1)%nat.
Proof.
  induction ns as [|n ns IH]; intros st Hkeys; [split; [exact Hkeys | reflexivity]|].
  cbn [foldl].
  assert (Hkeys' : forall k, 0 < in_degree_at (relax st n).1 k -> k ∈ keys).
  { intros k. unfold relax. cbn [fst]. rewrite in_degree_at_insert.
    destruct (decide (n = k)) as [<-|]; [|apply Hkeys]. intros Hk. apply Hkeys. lia. }
  destruct (IH (relax st n) Hkeys') as [Hk Hm]. split; [exact Hk|].
  etrans; [exact Hm|]. unfold relax. cbn [fst snd]. rewrite in_degree_at_insert, decide_True by done.
  destruct (Z.eqb_spec (in_degree_at st.1 n - 1) 0) as [Hz|Hnz].
  - rewrite length_app. cbn [length].
    pose proof (positives_insert_lt keys st.1 n (in_degree_at st.1 n - 1)
                  ltac:(apply Hkeys; lia) ltac:(lia) ltac:(lia)).
    lia.
  - pose proof (positives_insert_le keys st.1 n (in_degree_at st.1 n - 1) ltac:(lia)). lia.
Qed.

Lemma kahn_loop_total (keys : list string) (g : gmap string (list string)) :
  forall fuel d q sorted,
    (forall k, 0 < in_degree_at d k -> k ∈ keys) ->
    (length q + positives keys d <= fuel)%nat ->
    is_Some (kahn_loop fuel g d q sorted).
Proof.
  induction fuel as [|fuel IH]; intros d q sorted Hkeys Hfuel.
  - destruct q; [eexists; reflexivity | cbn [length] in Hfuel; lia].
  - destruct q as [|r q]; [eexists; reflexivity|]. cbn [kahn_loop].
    destruct (relax_measure keys (graph_at g r) (d, q) Hkeys) as [Hkeys' Hm].
    destruct (foldl relax (d, q) (graph_at g r)) as [d' q']. cbn [fst snd length] in *.
    apply IH; [exact Hkeys' | lia].
Qed.

(** The number of passes allowed to [kahn_sorted] is enough for every list
    of tables and every dict: the [while] loop of lines 71-78 always
    ends. *)
Lemma kahn_sorted_total (tables : list string) (foreign_keys : fk_dict) :
  is_Some (kahn_sorted tables foreign_keys).
Proof.
  unfold kahn_sorted. rewrite build_graph_edges.
  pose proof (foldl_add_dep_spec (edges foreign_keys) (∅, init_in_degree tables)) as Hspec.
  destruct (foldl add_dep (∅, init_in_degree tables) (edges foreign_keys)) as [g d].
  cbn [fst snd] in Hspec.
  apply (kahn_loop_total (foreign_keys.*1)).
  - intros k Hk. destruct (Hspec k) as [Hd _]. rewrite Hd, init_in_degree_zero in Hk.
    destruct (filter (fun e => e.1 = k) (edges foreign_keys)) as [|[t r] l] eqn:Hf;
      [cbn in Hk; lia|].
    assert (Hin : (t, r) ∈ filter (fun e => e.1 = k) (edges foreign_keys)) by (rewrite Hf; left).
    apply list_elem_of_filter in Hin as [Ht Hin]. cbn in Ht. subst t.
    eapply edges_key, Hin.
  - pose proof (length_filter (fun t => in_degree_at d t = 0) tables).
    pose proof (length_filter (fun k => 0 < in_degree_at d k) (foreign_keys.*1)) as Hp.
    rewrite length_fmap in Hp. unfold positives. lia.
Qed.

(** ** The order returned *)

Lemma append_unsorted_permutation (tables sorted : list string) :
  NoDup tables -> NoDup sorted -> (forall t, t ∈ sorted -> t ∈ tables) ->
  let rest := filter (fun t => t ∉ sorted) tables in
  append_unsorted tables sorted
    = (sorted ++ rest, if decide (rest = []) then [] else [WarnCyclic])
  /\ sorted ++ rest ≡ₚ tables
  /\ NoDup (sorted ++ rest).
Proof.
  intros Htables Hsorted Hsub rest.
  assert (Hnodup : NoDup (sorted ++ rest)).
  { apply NoDup_app. repeat split; [exact Hsorted | | now apply NoDup_filter].
    intros x Hx Hrest. apply list_elem_of_filter in Hrest as [Hout _]. contradiction. }
  assert (Hperm : sorted ++ rest ≡ₚ tables).
  { apply NoDup_Permutation; [exact Hnodup | exact Htables |].
    intros x. rewrite elem_of_app. subst rest. rewrite list_elem_of_filter. split.
    - intros [Hx|[_ Hx]]; [now apply Hsub | exact Hx].
    - intros Hx. destruct (decide (x ∈ sorted)); tauto. }
  split; [|split; assumption].
  pose proof (Permutation_length Hperm) as Hlen. rewrite length_app in Hlen.
  unfold append_unsorted. fold rest.
  destruct (decide (length sorted = length tables)) as [Heq|Hne].
  - assert (Hrest : rest = []) by (apply length_zero_iff_nil; lia).
    rewrite Hrest, app_nil_r, decide_True by done. reflexivity.
  - rewrite decide_False; [reflexivity|]. intros Hrest. rewrite Hrest in Hlen.
    cbn [length] in Hlen. lia.
Qed.

Lemma ordered_tc (es : list (string * string)) (sorted : list string) :
  ordered es sorted ->
  forall t r, tc (fun t r => (t, r) ∈ es) t r ->
  forall j, sorted !! j = Some t -> exists i, (i < j)%nat /\ sorted !! i = Some r.
Proof.
  intros Hord t r Htc. induction Htc as [t r Hr|t r r' Hr _ IH]; intros j Hj.
  - exact (Hord j t r Hj Hr).
  - destruct (Hord j t r Hj Hr) as (i & Hi & Hlook).
    destruct (IH i Hlook) as (i' & Hi' & Hlook'). exists i'. split; [lia | exact Hlook'].
Qed.

(** A table of the catalog that Kahn's pass did not sort has a foreign
    key to a table that was not sorted. *)
Lemma unsorted_has_unsorted_reference (tables sorted : list string) (foreign_keys : fk_dict) :
  (forall t, t ∈ tables ->
     (t ∈ sorted <-> forall r, references foreign_keys t r -> r ∈ sorted)) ->
  forall t, t ∈ filter (fun t => t ∉ sorted) tables ->
  exists r, references foreign_keys t r /\ r ∉ sorted.
Proof.
  intros Hfix t Ht. apply list_elem_of_filter in Ht as [Hout Ht].
  destruct (decide (Forall (fun e => e.1 = t -> e.2 ∈ sorted) (edges foreign_keys)))
    as [Hall|Hsome].
  - destruct Hout. apply (Hfix t Ht). intros r Hr.
    rewrite Forall_forall in Hall. exact (Hall (t, r) Hr eq_refl).
  - apply not_Forall_Exists in Hsome; [|intros e; apply _].
    apply Exists_exists in Hsome as ([t' r] & Hin & Hnot). cbn in Hnot.
    destruct (decide (t' = t)) as [->|Hne]; [|destruct Hnot; intros; contradiction].
    exists r. split; [exact Hin|]. intros Hr. apply Hnot. intros _. exact Hr.
Qed.

(** C6: for every duplicate-free list of tables and every foreign-key dict
    keyed by tables, with or without a cycle, the resolver returns (it does
    not abort or loop) a sorted part followed by the remaining tables in
    catalog order; the result is a permutation of the tables without
    duplicates, so every table is in it exactly once; the cycle warning is
    logged once, exactly when some table remained.  In the sorted part
    every table stands after every table it references; every remaining
    table references a table outside the sorted part; and every table on
    a foreign-key cycle is among the remaining ones, after the sorted
    part. *)
Theorem resolver_returns_every_table_once (tables : list string) (foreign_keys : fk_dict)
    (Hnodup : NoDup tables) (Hkeyed : keyed_by tables foreign_keys) :
  exists sorted,
    kahn_sorted tables foreign_keys = Some sorted
    /\ let rest := filter (fun t => t ∉ sorted) tables in
       topological_sort_tables tables foreign_keys
         = Some (sorted ++ rest, if decide (rest = []) then [] else [WarnCyclic])
       /\ sorted ++ rest ≡ₚ tables
       /\ NoDup (sorted ++ rest)
       /\ (forall t r, t ∈ sorted -> references foreign_keys t r -> before sorted r t)
       /\ (forall t, t ∈ rest -> exists r, references foreign_keys t r /\ r ∉ sorted)
       /\ (forall t, t ∈ tables -> tc (references foreign_keys) t t -> t ∈ rest).
Proof.
  destruct (kahn_sorted_spec tables foreign_keys Hnodup Hkeyed)
    as (sorted & Hrun & Hnd & Hsub & Hfix & Hord).
  exists sorted. split; [exact Hrun|]. intros rest.
  destruct (append_unsorted_permutation tables sorted Hnodup Hnd Hsub) as (Happ & Hperm & Hnd').
  unfold topological_sort_tables. rewrite Hrun. cbn [fmap option_fmap option_map].
  rewrite Happ.
  split; [reflexivity|]. split; [exact Hperm|]. split; [exact Hnd'|].
  split; [|split].
  - intros t r Ht Hr. apply list_elem_of_lookup_1 in Ht as [j Hj].
    destruct (Hord j t r Hj Hr) as (i & Hi & Hlook).
    exists i, j. repeat split; assumption.
  - apply (unsorted_has_unsorted_reference tables sorted foreign_keys Hfix).
  - intros t Ht Hcycle. apply list_elem_of_filter. split; [|exact Ht].
    intros Hin. apply list_elem_of_lookup_1 in Hin as [j Hj].
    destruct (ordered_tc _ _ Hord t t Hcycle j Hj) as (i & Hi & Hlook).
    pose proof (NoDup_lookup _ _ _ _ Hnd Hlook Hj). lia.
Qed.

Lemma tc_target {A} (R : relation A) (x y : A) : tc R x y -> exists z, R z y.
Proof. induction 1 as [x y Hxy|x y z _ _ IH]; [eauto | exact IH]. Qed.

Lemma acyclic_references_sn (foreign_keys : fk_dict) (t : string) :
  acyclic foreign_keys -> sn (references foreign_keys) t.
Proof.
  intros Hacyclic. apply tc_finite_sn; [exact Hacyclic|].
  exists ((edges foreign_keys).*2). intros y Hy.
  apply tc_target in Hy as [z Hz].
  apply (list_elem_of_fmap_2 snd) in Hz. exact Hz.
Qed.

(** X6: when the foreign-key graph is acyclic and every referenced table
    is one of the tables, Kahn's pass sorts every table, no warning is
    logged, and in the returned order every table stands strictly after
    every table it references. *)
Lemma resolver_order_closed_acyclic (tables : list string) (foreign_keys : fk_dict) :
  NoDup tables -> keyed_by tables foreign_keys ->
  closed_references tables foreign_keys -> acyclic foreign_keys ->
  exists order,
    topological_sort_tables tables foreign_keys = Some (order, [])
    /\ order ≡ₚ tables
    /\ forall t r, references foreign_keys t r -> before order r t.
Proof.
  intros Hnodup Hkeyed Hclosed Hacyclic.
  destruct (kahn_sorted_spec tables foreign_keys Hnodup Hkeyed)
    as (sorted & Hrun & Hnd & Hsub & Hfix & Hord).
  assert (Hall : forall t, t ∈ tables -> t ∈ sorted).
  { intros t. induction (acyclic_references_sn foreign_keys t Hacyclic) as [t _ IH].
    intros Ht. apply (Hfix t Ht). intros r Hr. apply (IH r Hr), (Hclosed t r Hr). }
  destruct (append_unsorted_permutation tables sorted Hnodup Hnd Hsub) as (Happ & Hperm & _).
  assert (Hrest : filter (fun t => t ∉ sorted) tables = []).
  { destruct (filter _ tables) as [|x l] eqn:Hf; [reflexivity|].
    assert (Hx : x ∈ filter (fun t => t ∉ sorted) tables) by (rewrite Hf; left).
    apply list_elem_of_filter in Hx as [Hout Hx]. destruct Hout. now apply Hall. }
  rewrite Hrest, app_nil_r in Happ, Hperm. rewrite decide_True in Happ by done.
  exists sorted. unfold topological_sort_tables.
  rewrite Hrun. cbn [fmap option_fmap option_map]. rewrite Happ.
  repeat split; [exact Hperm|].
  intros t r Hr.
  assert (Ht : t ∈ sorted) by (eapply Hall, Hkeyed, edges_key, Hr).
  apply list_elem_of_lookup_1 in Ht as [j Hj].
  destruct (Hord j t r Hj Hr) as (i & Hi & Hlook).
  exists i, j. repeat split; assumption.
Qed.

Lemma acyclic_by_rank (foreign_keys : fk_dict) (rank : string -> nat) :
  (forall t r, references foreign_keys t r -> (rank r < rank t)%nat) ->
  acyclic foreign_keys.
Proof.
  intros Hrank.
  assert (Htc : forall t r, tc (references foreign_keys) t r -> (rank r < rank t)%nat).
  { induction 1 as [t r Hr|t r r' Hr _ IH]; [now apply Hrank|].
    specialize (Hrank t r Hr). lia. }
  intros t Ht. specialize (Htc t t Ht). lia.
Qed.

Lemma resolver_returns_every_table_once_witness :
  let tables := ["A"; "B"; "C"] in
  let foreign_keys :=
    [("A", [FkRow 0 0 "B" "b_id" "id" "NO ACTION" "NO ACTION" "NONE"]);
     ("B", [FkRow 0 0 "A" "a_id" "id" "NO ACTION" "NO ACTION" "NONE"]);
     ("C", [])] in
  exists sorted,
    kahn_sorted tables foreign_keys = Some sorted
    /\ let rest := filter (fun t => t ∉ sorted) tables in
       topological_sort_tables tables foreign_keys
         = Some (sorted ++ rest, if decide (rest = []) then [] else [WarnCyclic])
       /\ sorted ++ rest ≡ₚ tables
       /\ NoDup (sorted ++ rest)
       /\ (forall t r, t ∈ sorted -> references foreign_keys t r -> before sorted r t)
       /\ (forall t, t ∈ rest -> exists r, references foreign_keys t r /\ r ∉ sorted)
       /\ (forall t, t ∈ tables -> tc (references foreign_keys) t t -> t ∈ rest).
Proof.
  intros tables foreign_keys.
  apply (resolver_returns_every_table_once tables foreign_keys).
  - apply (bool_decide_unpack _). vm_compute. exact I.
  - intros t Ht. exact Ht.
Defined.

(** The run of the witness above: the cycle between A and B leaves only C
    to Kahn's pass; A and B follow in catalog order, with the warning. *)
Example resolver_on_a_cycle :
  topological_sort_tables ["A"; "B"; "C"]
    [("A", [FkRow 0 0 "B" "b_id" "id" "NO ACTION" "NO ACTION" "NONE"]);
     ("B", [FkRow 0 0 "A" "a_id" "id" "NO ACTION" "NO ACTION" "NONE"]);
     ("C", [])]
  = Some (["C"; "A"; "B"], [WarnCyclic]).
Proof. vm_compute. reflexivity. Qed.

(** C1, at the failing input: U references T, and T references a table X
    that is not among the tables.  The graph has no cycle, yet neither
    in-degree ever reaches zero, Kahn's pass sorts nothing, the cycle
    warning is logged and the tables are returned in catalog order, U
    before the table T it references. *)
Theorem resolver_misorders_after_dangling_reference :
  let foreign_keys :=
    [("U", [FkRow 0 0 "T" "t_id" "id" "NO ACTION" "NO ACTION" "NONE"]);
     ("T", [FkRow 0 0 "X" "x_id" "id" "NO ACTION" "NO ACTION" "NONE"])] in
  acyclic foreign_keys
  /\ references foreign_keys "U" "T"
  /\ topological_sort_tables ["U"; "T"] foreign_keys = Some (["U"; "T"], [WarnCyclic])
  /\ ~ before ["U"; "T"] "T" "U".
Proof.
  intros foreign_keys. split; [|split; [|split]].
  - apply (acyclic_by_rank foreign_keys
             (fun t => if String.eqb t "U" then 2 else if String.eqb t "T" then 1 else 0)%nat).
    intros t r Hr. unfold references in Hr. cbn in Hr.
    apply elem_of_cons in Hr as [Hr|Hr]; [inversion Hr; subst; cbn; lia|].
    apply list_elem_of_singleton in Hr. inversion Hr; subst; cbn; lia.
  - unfold references. cbn. left.
  - vm_compute. reflexivity.
  - intros (i & j & Hi & Hj & Hlt).
    destruct i as [|[|i]]; try discriminate Hi.
    destruct j as [|[|j]]; try discriminate Hj. lia.
Qed.

(** The offset in a blob's file name is that of the page, not of the row:
    two rows of one page with an over-threshold value in the same column
    are written to the same file, and the file both LOAD_FILE placeholders
    name is left with the bytes of the second row. *)
Example blob_files_collide_within_page :
  exists st',
    export_table_data (Config "data" 1000 1 (Some "blobs") false "out.sql")
      (OsEnv (fun _ => true) (fun _ => true) (fun p _ => p) (fun p => p) (fun _ => false) (fun _ => None))
      "t" [ColumnInfo 0 "d" "BLOB" 0 None 0]
      (build_column_metadata (fun _ => None) [ColumnInfo 0 "d" "BLOB" 0 None 0])
      2 [[VBytes [x01; x02]]; [VBytes [x03; x04]]] (RunState [] [] ∅ []) = Done st'
    /\ rs_out st' = [ "INSERT INTO `t` (`d`) VALUES" +:+ Py.nl
                      +:+ "  (LOAD_FILE('blobs/t_d_0_0.bin'))," +:+ Py.nl
                      +:+ "  (LOAD_FILE('blobs/t_d_0_0.bin'));" +:+ Py.nl ]
    /\ rs_files st' = {[ "blobs/t_d_0_0.bin" := [x03; x04] ]}.
Proof.
  eexists. split; [vm_compute; reflexivity|]. split; reflexivity.
Qed.

(* ================================================================== *)
(** * Identifier helpers, sanitizing and literals *)
(* ================================================================== *)

Lemma length_append (a b : string) :
  String.length (a +:+ b) = (String.length a + String.length b)%nat.
Proof.
  induction a as [|c a IH]; [reflexivity|].
  rewrite append_cons. cbn [String.length]. now rewrite IH.
Qed.

Lemma take_chars_length (n : nat) (s : string) : (String.length (take_chars n s) <= n)%nat.
Proof.
  revert s. induction n as [|n IH]; intros [|c s]; cbn [take_chars String.length]; try lia.
  specialize (IH s). lia.
Qed.

Lemma small_decimal_length (k : Z) :
  0 <= k < 10000 -> (String.length (Py.str_of_int k) <= 4)%nat.
Proof.
  intros Hk.
  assert (Hall : forallb (fun n => (String.length (Py.str_of_int (Z.of_nat n)) <=? 4)%nat)
                   (seq 0 (Z.to_nat 10000)) = true) by (vm_compute; reflexivity).
  rewrite forallb_forall in Hall.
  specialize (Hall (Z.to_nat k)). rewrite Z2Nat.id in Hall by lia.
  apply Nat.leb_le, Hall, in_seq. lia.
Qed.

Lemma truncate_identifier_length (hash : string -> Z) (name : string) (max_length : Z) :
  8 <= max_length ->
  Z.of_nat (String.length (truncate_identifier hash name max_length)) <= max_length.
Proof.
  intros Hmax. unfold truncate_identifier.
  destruct (Z.ltb_spec max_length (Z.of_nat (String.length name))) as [Hlong|Hshort];
    [|exact Hshort].
  rewrite !length_append. unfold slice_to.
  replace (max_length - 8 <? 0) with false by (symmetry; apply Z.ltb_ge; lia).
  pose proof (take_chars_length (Z.to_nat (max_length - 8)) name).
  pose proof (small_decimal_length (hash name mod 10000)
                (Z.mod_pos_bound (hash name) 10000 ltac:(lia))).
  cbn [String.length]. lia.
Qed.

(** X1: whatever the hash, a truncated identifier, every index name and
    every foreign-key constraint name the dump creates has at most 64
    characters, and truncating a second time changes nothing. *)
Theorem synthetic_names_fit (hash : string -> Z) (index_info : string -> list string)
    (item_name name fk_column : string) :
  (String.length (truncate_identifier hash name 64) <= 64)%nat
  /\ (String.length (index_name_for hash index_info item_name name) <= 64)%nat
  /\ (String.length (fk_constraint_name hash item_name fk_column) <= 64)%nat
  /\ truncate_identifier hash (truncate_identifier hash name 64) 64
     = truncate_identifier hash name 64.
Proof.
  assert (Hfit : forall n, (String.length (truncate_identifier hash n 64) <= 64)%nat).
  { intros n. pose proof (truncate_identifier_length hash n 64 ltac:(lia)). lia. }
  repeat split.
  - apply Hfit.
  - unfold index_name_for.
    destruct (String.prefix _ _); apply Hfit.
  - apply Hfit.
  - pose proof (Hfit name) as Hlen. unfold truncate_identifier at 1.
    replace (64 <? Z.of_nat (String.length (truncate_identifier hash name 64))) with false
      by (symmetry; apply Z.ltb_ge; lia).
    reflexivity.
Qed.

Lemma unescape_escape_sql_identifier (name : string) :
  unescape_sql_identifier (escape_sql_identifier name) = Some name.
Proof.
  unfold escape_sql_identifier.
  induction name as [|c name IH]; [reflexivity|].
  cbn [Py.replace_char].
  destruct (Ascii.eqb c Py.backtick) eqn:Hc.
  - apply Ascii.eqb_eq in Hc as ->.
    change (unescape_sql_identifier
              (String Py.backtick (String Py.backtick (Py.replace_char Py.backtick "``" name)))
            = Some (String Py.backtick name)).
    cbn [unescape_sql_identifier]. rewrite Ascii.eqb_refl, IH. reflexivity.
  - cbn [unescape_sql_identifier]. rewrite Hc, IH. reflexivity.
Qed.

Lemma escape_sql_identifier_length (name : string) :
  String.length (escape_sql_identifier name)
  = (String.length name + count_char Py.backtick name)%nat.
Proof.
  unfold escape_sql_identifier.
  induction name as [|c name IH]; [reflexivity|].
  cbn [Py.replace_char count_char].
  destruct (Ascii.eqb c Py.backtick).
  - rewrite length_append, IH. cbn [String.length]. lia.
  - cbn [String.length]. rewrite IH. lia.
Qed.

(** X2: escaping an identifier doubles each of its backticks and changes
    nothing else: the escaped text reads back to the identifier without
    meeting a lone backtick, is longer by the number of backticks, and
    escaping distributes over concatenation. *)
Theorem escape_sql_identifier_round_trip (name rest : string) :
  unescape_sql_identifier (escape_sql_identifier name) = Some name
  /\ String.length (escape_sql_identifier name)
     = (String.length name + count_char Py.backtick name)%nat
  /\ escape_sql_identifier (name +:+ rest)
     = escape_sql_identifier name +:+ escape_sql_identifier rest.
Proof.
  split; [apply unescape_escape_sql_identifier|].
  split; [apply escape_sql_identifier_length|].
  apply replace_char_app.
Qed.

Lemma filter_chars_all (p : ascii -> bool) (s : string) :
  Forall (fun c => p c = true) (list_ascii_of_string (Py.filter_chars p s)).
Proof.
  induction s as [|c s IH]; [constructor|].
  cbn [Py.filter_chars]. destruct (p c) eqn:Hc; [|exact IH].
  cbn [list_ascii_of_string]. constructor; assumption.
Qed.

Lemma filter_chars_id (p : ascii -> bool) (s : string) :
  Py.filter_chars p s = s <-> Forall (fun c => p c = true) (list_ascii_of_string s).
Proof.
  split.
  - intros <-. apply filter_chars_all.
  - induction s as [|c s IH]; [reflexivity|].
    cbn [list_ascii_of_string Py.filter_chars]. intros Hall.
    apply Forall_cons in Hall as [-> Hall]. now rewrite IH.
Qed.

Lemma filter_chars_length (p : ascii -> bool) (s : string) :
  (String.length (Py.filter_chars p s) <= String.length s)%nat.
Proof.
  induction s as [|c s IH]; [reflexivity|].
  cbn [Py.filter_chars]. destruct (p c); cbn [String.length]; lia.
Qed.

(** X3: the sanitized text holds only printable characters, none of them
    NUL; sanitizing is idempotent, never lengthens, and leaves a text
    unchanged exactly when all its characters are printable. *)
Theorem sanitize_sql_value_printable (s : string) :
  Forall (fun c => Py.isprintable c = true /\ c <> Py.nul)
         (list_ascii_of_string (sanitize_sql_value s))
  /\ sanitize_sql_value (sanitize_sql_value s) = sanitize_sql_value s
  /\ (String.length (sanitize_sql_value s) <= String.length s)%nat
  /\ (sanitize_sql_value s = s
      <-> Forall (fun c => Py.isprintable c = true) (list_ascii_of_string s)).
Proof.
  rewrite !sanitize_sql_value_filter. repeat split.
  - eapply Forall_impl; [apply filter_chars_all|]. intros c Hc. split; [exact Hc|].
    intros ->. discriminate Hc.
  - apply filter_chars_id, filter_chars_all.
  - apply filter_chars_length.
  - apply filter_chars_id.
  - apply filter_chars_id.
Qed.

Lemma hex_digit_lower (n : N) : is_lower_hex (hex_digit n) = true.
Proof.
  destruct n as [|p]; [reflexivity|].
  do 4 (destruct p as [p|p|]; try reflexivity).
Qed.

(** X4: the hexadecimal text of a binary value has two characters per
    byte, all of them among 0-9 and a-f: it holds no quote, so it cannot
    end the literal it is placed in. *)
Theorem bytes_hex_alphabet (b : list byte) :
  String.length (bytes_hex b) = (2 * length b)%nat
  /\ Forall (fun c => is_lower_hex c = true) (list_ascii_of_string (bytes_hex b))
  /\ count_char Py.quote (bytes_hex b) = 0%nat.
Proof.
  induction b as [|x b (IHlen & IHall & IHq)]; [repeat split; constructor|].
  change (bytes_hex (x :: b))
    with (String (hex_digit (Byte.to_N x / 16))
            (String (hex_digit (Byte.to_N x mod 16)) (bytes_hex b))).
  repeat split.
  - cbn [String.length length]. rewrite IHlen. lia.
  - cbn [list_ascii_of_string]. repeat constructor; try apply hex_digit_lower. exact IHall.
  - cbn [count_char].
    pose proof (hex_digit_lower (Byte.to_N x / 16)) as H1.
    pose proof (hex_digit_lower (Byte.to_N x mod 16)) as H2.
    destruct (Ascii.eqb_spec (hex_digit (Byte.to_N x / 16)) Py.quote) as [E|_];
      [rewrite E in H1; discriminate H1|].
    destruct (Ascii.eqb_spec (hex_digit (Byte.to_N x mod 16)) Py.quote) as [E|_];
      [rewrite E in H2; discriminate H2|].
    exact IHq.
Qed.

Lemma int_of_str_of_int (n : Z) : int_of_str (Py.str_of_int n) = Some n.
Proof.
  unfold int_of_str, Py.str_of_int. rewrite NilZero.isi.
  - cbn [fmap option_fmap option_map]. now rewrite DecimalZ.of_to.
  - destruct n; cbn; try discriminate.
    intros [= H]. now apply DecimalPos.Unsigned.to_uint_nonnil in H.
  - destruct n; cbn; try discriminate.
    intros [= H]. now apply DecimalPos.Unsigned.to_uint_nonnil in H.
Qed.

(** X5: an integer value is encoded, whatever the declared type, as a
    decimal text that reads back to the same integer; nothing is written
    or logged, and distinct integers get distinct literals. *)
Theorem integer_value_round_trip (cfg : config) (env : os_env)
    (item_name col_name col_type : string) (offset : Z) (i : nat) (files : file_store)
    (n m : Z) :
  encode_value cfg env item_name col_name col_type offset i files (VInt n)
    = (Py.str_of_int n, files, [])
  /\ int_of_str (Py.str_of_int n) = Some n
  /\ (Py.str_of_int n = Py.str_of_int m <-> n = m).
Proof.
  split; [reflexivity|]. split; [apply int_of_str_of_int|].
  split; [|now intros ->].
  intros Heq. pose proof (int_of_str_of_int n) as Hn.
  rewrite Heq, int_of_str_of_int in Hn. now injection Hn.
Qed.

(* ================================================================== *)
(** * Dependency resolver: further properties *)
(* ================================================================== *)

Lemma resolver_order_closed_acyclic_witness :
  exists order,
    topological_sort_tables ["orders"; "users"]
      [("orders", [FkRow 0 0 "users" "user_id" "id" "NO ACTION" "NO ACTION" "NONE"]);
       ("users", [])] = Some (order, [])
    /\ order ≡ₚ ["orders"; "users"]
    /\ forall t r,
         references
           [("orders", [FkRow 0 0 "users" "user_id" "id" "NO ACTION" "NO ACTION" "NONE"]);
            ("users", [])] t r -> before order r t.
Proof.
  apply resolver_order_closed_acyclic.
  - apply (bool_decide_unpack _). vm_compute. exact I.
  - intros t Ht. exact Ht.
  - intros t r Hr. unfold references in Hr. cbn in Hr.
    apply list_elem_of_singleton in Hr. inversion Hr; subst.
    apply (bool_decide_unpack _). vm_compute. exact I.
  - apply (acyclic_by_rank _ (fun t => if String.eqb t "orders" then 1 else 0)%nat).
    intros t r Hr. unfold references in Hr. cbn in Hr.
    apply list_elem_of_singleton in Hr. inversion Hr; subst. cbn. lia.
Defined.

Lemma relax_appends (ns : list string) :
  forall st : gmap string Z * list string,
    exists added, (foldl relax st ns).2 = st.2 ++ added.
Proof.
  induction ns as [|n ns IH]; intros st; [exists []; now rewrite app_nil_r|].
  cbn [foldl]. destruct (IH (relax st n)) as [added ->].
  unfold relax. cbn [snd]. destruct (_ =? 0).
  - exists (n :: added). now rewrite <- app_assoc.
  - now exists added.
Qed.

(** The queue is first-in first-out: whatever the loop returns starts with
    what was sorted and what was queued, in that order. *)
Lemma kahn_loop_prefix (g : gmap string (list string)) :
  forall fuel d q sorted res,
    kahn_loop fuel g d q sorted = Some res -> exists tail, res = sorted ++ q ++ tail.
Proof.
  induction fuel as [|fuel IH]; intros d q sorted res Hrun.
  - destruct q; [|discriminate Hrun]. injection Hrun as <-. exists []. now rewrite !app_nil_r.
  - destruct q as [|r q]; [injection Hrun as <-; exists []; now rewrite !app_nil_r|].
    cbn [kahn_loop] in Hrun.
    destruct (relax_appends (graph_at g r) (d, q)) as [added Hq]. cbn [snd] in Hq.
    destruct (foldl relax (d, q) (graph_at g r)) as [d' q']. cbn [snd] in Hq. subst q'.
    apply IH in Hrun as [tail ->]. exists (added ++ tail).
    now rewrite <- !app_assoc.
Qed.

(** X7: on every input (duplicate tables and foreign keys of unknown
    tables included) the resolver returns, and ties are broken by catalog
    order: the returned order starts with the tables that have no foreign
    key, in the order of the catalog. *)
Theorem resolver_starts_with_free_tables (tables : list string) (foreign_keys : fk_dict) :
  exists tail log,
    topological_sort_tables tables foreign_keys
    = Some (filter (fun t => t ∉ (edges foreign_keys).*1) tables ++ tail, log).
Proof.
  destruct (kahn_sorted_total tables foreign_keys) as [sorted Hrun].
  unfold topological_sort_tables. rewrite Hrun. cbn [fmap option_fmap option_map].
  unfold kahn_sorted in Hrun. rewrite build_graph_edges in Hrun.
  pose proof (foldl_add_dep_spec (edges foreign_keys) (∅, init_in_degree tables)) as Hspec.
  destruct (foldl add_dep (∅, init_in_degree tables) (edges foreign_keys)) as [g d].
  cbn [fst snd] in Hspec.
  apply kahn_loop_prefix in Hrun as [tail ->]. cbn [app].
  assert (Hfilter : filter (fun t => in_degree_at d t = 0) tables
                    = filter (fun t => t ∉ (edges foreign_keys).*1) tables).
  { apply list_filter_iff. intros t. destruct (Hspec t) as [-> _].
    rewrite init_in_degree_zero. split.
    - intros Hz Hin. apply list_elem_of_fmap in Hin as ([t' r] & -> & Hin).
      assert (Hf : (t', r) ∈ filter (fun e => e.1 = t') (edges foreign_keys))
        by now apply list_elem_of_filter.
      destruct (filter _ (edges foreign_keys)); [inversion Hf | cbn [length] in Hz; lia].
    - intros Hout. destruct (filter _ (edges foreign_keys)) as [|e l] eqn:Hf; [reflexivity|].
      assert (He : e ∈ filter (fun e => e.1 = t) (edges foreign_keys)) by (rewrite Hf; left).
      apply list_elem_of_filter in He as [<- He]. destruct Hout.
      now apply (list_elem_of_fmap_2 fst). }
  rewrite Hfilter. unfold append_unsorted.
  destruct (decide _); rewrite <- ?app_assoc; eauto.
Qed.

Lemma kahn_loop_no_edges (g : gmap string (list string)) :
  (forall t, graph_at g t = []) ->
  forall fuel d q sorted,
    (length q <= fuel)%nat -> kahn_loop fuel g d q sorted = Some (sorted ++ q).
Proof.
  intros Hg. induction fuel as [|fuel IH]; intros d q sorted Hfuel.
  - destruct q; [now rewrite app_nil_r | cbn [length] in Hfuel; lia].
  - destruct q as [|r q]; [now rewrite app_nil_r|].
    cbn [kahn_loop]. rewrite Hg. cbn [foldl]. rewrite IH by (cbn [length] in Hfuel; lia).
    now rewrite <- app_assoc.
Qed.

(** X8: without any foreign key the resolver returns the tables as the
    catalog lists them, and logs nothing. *)
Theorem resolver_without_foreign_keys (tables : list string) (foreign_keys : fk_dict)
    (Hnone : edges foreign_keys = []) :
  topological_sort_tables tables foreign_keys = Some (tables, []).
Proof.
  unfold topological_sort_tables, kahn_sorted. rewrite build_graph_edges, Hnone. cbn [foldl].
  assert (Hq : filter (fun t => in_degree_at (init_in_degree tables) t = 0) tables = tables).
  { generalize (init_in_degree_zero tables). generalize (init_in_degree tables) as d.
    intros d Hd. induction tables as [|t l IH]; [reflexivity|].
    rewrite filter_cons, decide_True by apply Hd. now rewrite IH. }
  rewrite Hq, kahn_loop_no_edges; [|reflexivity|lia].
  cbn [fmap option_fmap option_map app]. unfold append_unsorted.
  now rewrite decide_True.
Qed.

Lemma resolver_without_foreign_keys_witness :
  topological_sort_tables ["b"; "a"; "b"] [("a", []); ("b", [])] = Some (["b"; "a"; "b"], []).
Proof. apply resolver_without_foreign_keys. reflexivity. Defined.

(** X9: whatever the graph, the tables Kahn's pass sorted stand each
    after all the tables they reference, and each table left to the
    fallback has a foreign key to a table that was not sorted. *)
Theorem sorted_prefix_respects_references (tables : list string) (foreign_keys : fk_dict)
    (Hnodup : NoDup tables) (Hkeyed : keyed_by tables foreign_keys) :
  exists sorted rest log,
    topological_sort_tables tables foreign_keys = Some (sorted ++ rest, log)
    /\ (forall t r, t ∈ sorted -> references foreign_keys t r -> before (sorted ++ rest) r t)
    /\ (forall t, t ∈ rest -> exists r, references foreign_keys t r /\ r ∉ sorted).
Proof.
  destruct (kahn_sorted_spec tables foreign_keys Hnodup Hkeyed)
    as (sorted & Hrun & Hnd & Hsub & Hfix & Hord).
  destruct (append_unsorted_permutation tables sorted Hnodup Hnd Hsub) as (Happ & _ & _).
  eexists sorted, (filter (fun t => t ∉ sorted) tables), _.
  unfold topological_sort_tables. rewrite Hrun. cbn [fmap option_fmap option_map].
  rewrite Happ. split; [reflexivity|]. split.
  - intros t r Ht Hr. apply list_elem_of_lookup_1 in Ht as [j Hj].
    destruct (Hord j t r Hj Hr) as (i & Hi & Hlook).
    exists i, j. pose proof (lookup_lt_Some _ _ _ Hj). pose proof (lookup_lt_Some _ _ _ Hlook).
    rewrite !lookup_app_l by lia. repeat split; assumption.
  - intros t Ht. apply list_elem_of_filter in Ht as [Hout Ht].
    destruct (decide (Forall (fun e => e.1 = t -> e.2 ∈ sorted) (edges foreign_keys)))
      as [Hall|Hsome].
    + destruct Hout. apply (Hfix t Ht). intros r Hr.
      rewrite Forall_forall in Hall. exact (Hall (t, r) Hr eq_refl).
    + apply not_Forall_Exists in Hsome; [|intros e; apply _].
      apply Exists_exists in Hsome as ([t' r] & Hin & Hnot). cbn in Hnot.
      destruct (decide (t' = t)) as [->|Hne]; [|destruct Hnot; intros; contradiction].
      exists r. split; [exact Hin|]. intros Hr. apply Hnot. intros _. exact Hr.
Qed.

Lemma sorted_prefix_respects_references_witness :
  exists sorted rest log,
    topological_sort_tables ["a"; "b"; "c"; "d"]
      [("a", [FkRow 0 0 "b" "b_id" "id" "NO ACTION" "NO ACTION" "NONE"]);
       ("b", [FkRow 0 0 "a" "a_id" "id" "NO ACTION" "NO ACTION" "NONE"]);
       ("c", [FkRow 0 0 "d" "d_id" "id" "NO ACTION" "NO ACTION" "NONE"]);
       ("d", [])] = Some (sorted ++ rest, log)
    /\ (forall t r, t ∈ sorted ->
          references
            [("a", [FkRow 0 0 "b" "b_id" "id" "NO ACTION" "NO ACTION" "NONE"]);
             ("b", [FkRow 0 0 "a" "a_id" "id" "NO ACTION" "NO ACTION" "NONE"]);
             ("c", [FkRow 0 0 "d" "d_id" "id" "NO ACTION" "NO ACTION" "NONE"]);
             ("d", [])] t r -> before (sorted ++ rest) r t)
    /\ (forall t, t ∈ rest -> exists r,
          references
            [("a", [FkRow 0 0 "b" "b_id" "id" "NO ACTION" "NO ACTION" "NONE"]);
             ("b", [FkRow 0 0 "a" "a_id" "id" "NO ACTION" "NO ACTION" "NONE"]);
             ("c", [FkRow 0 0 "d" "d_id" "id" "NO ACTION" "NO ACTION" "NONE"]);
             ("d", [])] t r /\ r ∉ sorted).
Proof.
  apply sorted_prefix_respects_references.
  - apply (bool_decide_unpack _). vm_compute. exact I.
  - intros t Ht. exact Ht.
Defined.

(** X10: a table on a foreign-key cycle, a table that references itself
    included, is never sorted by Kahn's pass: it is among the tables
    appended in catalog order, and the cycle warning is logged. *)
Theorem cycle_member_left_to_fallback (tables : list string) (foreign_keys : fk_dict)
    (t : string)
    (Hnodup : NoDup tables) (Hkeyed : keyed_by tables foreign_keys)
    (Ht : t ∈ tables) (Hcycle : tc (references foreign_keys) t t) :
  exists sorted rest,
    topological_sort_tables tables foreign_keys = Some (sorted ++ rest, [WarnCyclic])
    /\ rest = filter (fun x => x ∉ sorted) tables
    /\ t ∈ rest.
Proof.
  destruct (kahn_sorted_spec tables foreign_keys Hnodup Hkeyed)
    as (sorted & Hrun & Hnd & Hsub & _ & Hord).
  destruct (append_unsorted_permutation tables sorted Hnodup Hnd Hsub) as (Happ & _ & _).
  assert (Hout : t ∉ sorted).
  { intros Hin. apply list_elem_of_lookup_1 in Hin as [j Hj].
    destruct (ordered_tc _ _ Hord t t Hcycle j Hj) as (i & Hi & Hlook).
    pose proof (NoDup_lookup _ _ _ _ Hnd Hlook Hj). lia. }
  assert (Hrest : t ∈ filter (fun x => x ∉ sorted) tables) by now apply list_elem_of_filter.
  exists sorted, (filter (fun x => x ∉ sorted) tables).
  unfold topological_sort_tables. rewrite Hrun. cbn [fmap option_fmap option_map].
  rewrite Happ. rewrite decide_False; [auto|].
  intros Hnil. rewrite Hnil in Hrest. inversion Hrest.
Qed.

Lemma cycle_member_left_to_fallback_witness :
  exists sorted rest,
    topological_sort_tables ["category"; "item"]
      [("category", [FkRow 0 0 "category" "parent_id" "id" "NO ACTION" "NO ACTION" "NONE"]);
       ("item", [FkRow 0 0 "category" "category_id" "id" "NO ACTION" "NO ACTION" "NONE"])]
      = Some (sorted ++ rest, [WarnCyclic])
    /\ rest = filter (fun x => x ∉ sorted) ["category"; "item"]
    /\ "category" ∈ rest.
Proof.
  apply cycle_member_left_to_fallback.
  - apply (bool_decide_unpack _). vm_compute. exact I.
  - intros t Ht. exact Ht.
  - left.
  - apply tc_once. unfold references. cbn. left.
Defined.

(* ================================================================== *)
(** * Type mapper and column clauses: further properties *)
(* ================================================================== *)

Lemma upper_char_idempotent (c : ascii) : Py.upper_char (Py.upper_char c) = Py.upper_char c.
Proof. destruct c as [[] [] [] [] [] [] [] []]; reflexivity. Qed.

Lemma upper_idempotent (s : string) : Py.upper (Py.upper s) = Py.upper s.
Proof.
  induction s as [|c s IH]; [reflexivity|].
  cbn [Py.upper]. now rewrite upper_char_idempotent, IH.
Qed.

(** X11: the mapper reads the type name without regard to case: a type
    name and its upper-case form get the same clause, whatever the
    statistics and flags. *)
Theorem type_mapper_ignores_case (ty : string) (len : option Z) (nullable : bool)
    (v : option Z) (is_primary : bool) :
  sqlite_to_mysql_type ty len nullable v is_primary
  = sqlite_to_mysql_type (Py.upper ty) len nullable v is_primary.
Proof.
  unfold sqlite_to_mysql_type, mysql_base_type. now rewrite upper_idempotent.
Qed.

Lemma dict_get_miss (d : list (string * string)) (k dflt : string) :
  Py.str_in k (map fst d) = false -> Py.dict_get d k dflt = dflt.
Proof.
  unfold Py.str_in. induction d as [|[k' v] d IH]; [reflexivity|].
  cbn [map fst existsb Py.dict_get]. intros Hmiss.
  apply orb_false_iff in Hmiss as [Hk Hrest].
  rewrite String.eqb_sym, Hk. now apply IH.
Qed.

(** X12: an ASCII type name that is none of the ten mapped ones passes
    through in upper case, followed by the nullability suffix: no
    statistic and no primary-key flag changes it. *)
Theorem unmapped_type_passes_through (ty : string) (len : option Z) (nullable : bool)
    (v : option Z) (is_primary : bool)
    (Hascii : Py.isascii ty = true)
    (Hunknown : Py.str_in (Py.upper ty) mapped_types = false) :
  sqlite_to_mysql_type ty len nullable v is_primary
  = Py.upper ty +:+ nullability_suffix nullable.
Proof.
  unfold sqlite_to_mysql_type, mysql_base_type.
  rewrite dict_get_miss by (destruct is_primary; exact Hunknown).
  unfold Py.str_in, mapped_types in Hunknown. cbn [existsb] in Hunknown.
  apply orb_false_iff in Hunknown as [Htext Hrest].
  apply orb_false_iff in Hrest as [Hint _].
  rewrite Htext, Hint, andb_false_r. reflexivity.
Qed.

Lemma unmapped_type_passes_through_witness :
  sqlite_to_mysql_type "varchar(20)" (Some 7) false (Some 0) true = "VARCHAR(20) NOT NULL".
Proof.
  apply (unmapped_type_passes_through "varchar(20)" (Some 7) false (Some 0) true).
  - reflexivity.
  - reflexivity.
Defined.

(** X13: a column declared TEXT in any case, or declared without a type,
    gets its type from the observed maximum length alone: VARCHAR of
    exactly that length up to 255, TEXT up to 65535, LONGTEXT beyond; an
    unanswered probe counts as length 0; the suffix follows the NOT NULL
    flag. *)
Theorem text_column_type (probe : option Z) (col : column_info)
    (Htext : ci_type col = "" \/ Py.upper (ci_type col) = "TEXT") :
  let meta := build_metadata probe col in
  sqlite_to_mysql_type (md_type meta) (Some (md_max_length meta)) (md_nullable meta)
    (Some (md_max_value meta)) (md_is_primary meta)
  = text_type_for (default 0 probe) +:+ nullability_suffix (ci_notnull col =? 0).
Proof.
  intros meta.
  assert (Hty : md_type meta = "TEXT").
  { subst meta. unfold build_metadata. cbn [md_type].
    destruct (String.eqb_spec (ci_type col) "") as [|Hne]; [reflexivity|].
    destruct Htext as [|Hup]; [contradiction | exact Hup]. }
  assert (Hlen : md_max_length meta = default 0 probe).
  { subst meta. unfold build_metadata in *. cbn [md_type md_max_length] in *.
    now rewrite Hty. }
  rewrite Hty, Hlen. subst meta. cbn [build_metadata md_nullable md_is_primary].
  unfold sqlite_to_mysql_type, mysql_base_type, text_type_for.
  change (Py.upper "TEXT") with "TEXT". cbn [String.eqb Ascii.eqb Bool.eqb].
  set (n := default 0 probe).
  destruct (Z.leb_spec n 255) as [Hsmall|Hbig].
  - replace (65535 <? n) with false by (symmetry; apply Z.ltb_ge; lia).
    replace (255 <? n) with false by (symmetry; apply Z.ltb_ge; lia).
    rewrite Z.min_l by lia. now rewrite andb_false_r.
  - replace (255 <? n) with true by (symmetry; apply Z.ltb_lt; lia).
    destruct (Z.leb_spec n 65535) as [Hmid|Hhuge].
    + replace (65535 <? n) with false by (symmetry; apply Z.ltb_ge; lia).
      now rewrite andb_false_r.
    + replace (65535 <? n) with true by (symmetry; apply Z.ltb_lt; lia).
      now rewrite andb_false_r.
Qed.

Lemma text_column_type_witness :
  sqlite_to_mysql_type "TEXT" (Some 0) true (Some 0) false = "VARCHAR(0) DEFAULT NULL".
Proof.
  exact (text_column_type None (ColumnInfo 3 "note" "" 0 None 0) (or_introl eq_refl)).
Defined.

(** X14: on a TEXT, DATETIME or DATE column, a default whose sanitized
    text matches the function-call pattern is left out of the clause, which
    is then just the mapper's, and one warning names the column and the
    text. *)
Theorem call_default_dropped (col_name : string) (meta : metadata) (d : string)
    (Hdefault : md_default_value meta = Some d)
    (Hnotnull : Py.upper d <> "NULL")
    (Htype : Py.str_in (md_type meta) ["TEXT"; "DATETIME"; "DATE"] = true)
    (Hcall : matches_call_pattern (sanitize_sql_value d) = true) :
  column_clause col_name meta
  = ("`" +:+ escape_sql_identifier col_name +:+ "` "
     +:+ sqlite_to_mysql_type (md_type meta) (Some (md_max_length meta)) (md_nullable meta)
           (Some (md_max_value meta)) (md_is_primary meta),
     [WarnComplexDefault col_name (sanitize_sql_value d)]).
Proof.
  unfold column_clause, default_clause. rewrite Hdefault.
  apply String.eqb_neq in Hnotnull. rewrite Hnotnull, Htype, Hcall.
  destruct (String.eqb_spec d "") as [->|_]; [discriminate Hcall|].
  now rewrite append_empty_r.
Qed.

Lemma call_default_dropped_witness :
  column_clause "created" (Metadata "DATETIME" false false (Some "datetime('now')") 0 0)
  = ("`created` DATETIME NOT NULL", [WarnComplexDefault "created" "datetime('now')"]).
Proof.
  apply (call_default_dropped "created"
           (Metadata "DATETIME" false false (Some "datetime('now')") 0 0) "datetime('now')").
  - reflexivity.
  - discriminate.
  - reflexivity.
  - reflexivity.
Defined.

Lemma skip_word_app (w rest : string) :
  all_word w -> skip_word (w +:+ String "(" rest) = String "(" rest.
Proof.
  unfold all_word. induction w as [|c w IH]; [reflexivity|].
  cbn [list_ascii_of_string]. intros Hall. apply Forall_cons in Hall as [Hc Hall].
  rewrite append_cons. cbn [skip_word]. rewrite Hc. now apply IH.
Qed.

Lemma skip_word_split (s : string) :
  exists w, s = w +:+ skip_word s /\ all_word w.
Proof.
  induction s as [|c s (w & Hs & Hw)]; [exists ""; split; [reflexivity | constructor]|].
  cbn [skip_word]. destruct (is_word_char c) eqn:Hc.
  - exists (String c w). split; [rewrite append_cons; now f_equal|].
    unfold all_word. cbn [list_ascii_of_string]. now constructor.
  - exists "". split; [reflexivity | constructor].
Qed.

Lemma dot_star_close_spec (s : string) :
  dot_star_close s = true
  <-> exists m tail,
        s = m +:+ String ")" tail /\ no_newline m /\ (tail = "" \/ tail = Py.nl).
Proof.
  split.
  - induction s as [|c s IH]; [discriminate|].
    cbn [dot_star_close]. intros H. apply orb_true_iff in H as [H|H].
    + apply andb_true_iff in H as [Hc Htail]. apply Ascii.eqb_eq in Hc as ->.
      exists "", s. split; [reflexivity|]. split; [constructor|].
      apply orb_true_iff in Htail as [Ht|Ht]; apply String.eqb_eq in Ht; auto.
    + apply andb_true_iff in H as [Hc Hrest]. destruct (IH Hrest) as (m & tail & -> & Hm & Ht).
      exists (String c m), tail. split; [reflexivity|]. split; [|exact Ht].
      unfold no_newline. cbn [list_ascii_of_string]. constructor; [|exact Hm].
      intros ->. discriminate Hc.
  - intros (m & tail & -> & Hm & Ht). unfold no_newline in Hm.
    induction m as [|c m IH].
    + rewrite append_nil. cbn [dot_star_close].
      destruct Ht as [-> | ->]; reflexivity.
    + cbn [list_ascii_of_string] in Hm. apply Forall_cons in Hm as [Hc Hm].
      rewrite append_cons. cbn [dot_star_close]. rewrite (IH Hm).
      apply Ascii.eqb_neq in Hc. rewrite Hc. apply orb_true_r.
Qed.

(** X15: the test of line 268 is the regular expression it stands for: a
    text matches exactly when it is a non-empty run of word characters, an
    opening parenthesis, any text without a newline, and a closing
    parenthesis that ends the text or stands before a final newline. *)
Theorem matches_call_pattern_spec (s : string) :
  matches_call_pattern s = true
  <-> exists w m tail,
        s = w +:+ String "(" (m +:+ String ")" tail)
        /\ w <> "" /\ all_word w /\ no_newline m /\ (tail = "" \/ tail = Py.nl).
Proof.
  split.
  - destruct s as [|c s]; [discriminate|]. unfold matches_call_pattern.
    intros H. apply andb_true_iff in H as [Hc H].
    destruct (skip_word_split (String c s)) as (w & Hs & Hw).
    destruct (skip_word (String c s)) as [|p rest]; [discriminate H|].
    destruct (Ascii.eqb_spec p "(") as [->|Hp].
    + apply dot_star_close_spec in H as (m & tail & -> & Hm & Ht).
      exists w, m, tail. repeat split; try assumption.
      intros ->. rewrite append_nil in Hs. injection Hs as -> _. discriminate Hc.
    + exfalso. revert H.
      destruct p as [[] [] [] [] [] [] [] []]; try discriminate; now destruct Hp.
  - intros (w & m & tail & -> & Hne & Hw & Hm & Ht).
    destruct w as [|c w]; [contradiction|].
    unfold matches_call_pattern. rewrite append_cons.
    rewrite <- append_cons, skip_word_app by exact Hw.
    unfold all_word in Hw. cbn [list_ascii_of_string] in Hw.
    apply Forall_cons in Hw as [-> _]. cbn [andb].
    apply dot_star_close_spec. eauto.
Qed.

(** X23: the two DEFAULT clauses, from the catalog row.  Take a column
    with an ASCII type name that is nullable and has a non-empty default
    text that is not the NULL keyword and, for TEXT, DATETIME and DATE
    columns, whose sanitized text does not match the function-call
    pattern.  If the column is TEXT or INTEGER, let its statistic be an
    integer (the answer of its query is an integer, NULL or empty, or the
    query failed).  Then the column's clause is the name, the base type,
    DEFAULT NULL, and the DEFAULT of the default value, quoted for those
    three types and raw for the others; nothing is logged but the warning
    of a failed query. *)
Theorem queried_column_two_defaults (answer : max_answer) (col : column_info)
    (d : string) (n : Z)
    (Hascii : Py.isascii (ci_type col) = true)
    (Hanswer : queried (column_type col) = true -> statistic answer = Some n)
    (Hnullable : ci_notnull col = 0)
    (Hdefault : ci_dflt_value col = Some d)
    (Hnonempty : d <> "")
    (Hnotnull : Py.upper d <> "NULL")
    (Hplain : Py.str_in (column_type col) ["TEXT"; "DATETIME"; "DATE"] = true ->
              matches_call_pattern (sanitize_sql_value d) = false) :
  let meta := build_metadata (Some n) col in
  let base := mysql_base_type (column_type col) (Some (md_max_length meta))
                (Some (md_max_value meta)) (0 <? ci_pk col) in
  catalog_column_clause answer col
  = Some ("`" +:+ escape_sql_identifier (ci_name col) +:+ "` " +:+ (base +:+ " DEFAULT NULL")
          +:+ " DEFAULT "
          +:+ (if Py.str_in (column_type col) ["TEXT"; "DATETIME"; "DATE"]
               then "'" +:+ sanitize_sql_value d +:+ "'" else d),
          match answer with
          | MaxFailed => if queried (column_type col) then [WarnNoMaximum (ci_name col)] else []
          | _ => []
          end).
Proof.
  intros meta base.
  assert (Hclause : column_clause (ci_name col) meta
            = ("`" +:+ escape_sql_identifier (ci_name col) +:+ "` "
               +:+ (base +:+ " DEFAULT NULL") +:+ " DEFAULT "
               +:+ (if Py.str_in (column_type col) ["TEXT"; "DATETIME"; "DATE"]
                    then "'" +:+ sanitize_sql_value d +:+ "'" else d), [])).
  { apply (column_clause_two_defaults (ci_name col) meta d).
    - subst meta. cbn [build_metadata md_nullable]. now rewrite Hnullable.
    - exact Hdefault.
    - exact Hnonempty.
    - exact Hnotnull.
    - exact Hplain. }
  unfold catalog_column_clause.
  destruct (queried (column_type col)) eqn:Hqueried.
  - rewrite (Hanswer eq_refl). fold meta. rewrite Hclause.
    destruct answer; reflexivity.
  - rewrite <- (build_metadata_unqueried (Some n) col Hqueried). fold meta.
    rewrite Hclause. destruct answer; reflexivity.
Qed.

Lemma queried_column_two_defaults_witness :
  catalog_column_clause (MaxInt 3) (ColumnInfo 2 "status" "text" 0 (Some "new") 0)
    = Some ("`status` VARCHAR(3) DEFAULT NULL DEFAULT 'new'", [])
  /\ catalog_column_clause MaxFailed (ColumnInfo 1 "qty" "INTEGER" 0 (Some "1") 0)
    = Some ("`qty` INT DEFAULT NULL DEFAULT 1", [WarnNoMaximum "qty"])
  /\ catalog_column_clause MaxNull (ColumnInfo 4 "ratio" "real" 0 (Some "0.5") 0)
    = Some ("`ratio` DOUBLE DEFAULT NULL DEFAULT 0.5", []).
Proof.
  split; [|split].
  - refine (queried_column_two_defaults (MaxInt 3)
              (ColumnInfo 2 "status" "text" 0 (Some "new") 0) "new" 3
              eq_refl _ eq_refl eq_refl _ _ _).
    + reflexivity.
    + discriminate.
    + discriminate.
    + reflexivity.
  - refine (queried_column_two_defaults MaxFailed
              (ColumnInfo 1 "qty" "INTEGER" 0 (Some "1") 0) "1" 0
              eq_refl _ eq_refl eq_refl _ _ _).
    + reflexivity.
    + discriminate.
    + discriminate.
    + discriminate.
  - refine (queried_column_two_defaults MaxNull
              (ColumnInfo 4 "ratio" "real" 0 (Some "0.5") 0) "0.5" 0
              eq_refl _ eq_refl eq_refl _ _ _).
    + discriminate.
    + discriminate.
    + discriminate.
    + discriminate.
Defined.

(** X24: on a column declared INTEGER in any case, a largest value that is
    a non-empty text or a non-empty blob stops the structure export: the
    mapper raises TypeError and no clause is made, whatever the column's
    flags and default.  An empty text counts as 0. *)
Theorem text_maximum_stops_structure (col : column_info)
    (Hinteger : Py.upper (ci_type col) = "INTEGER") :
  (forall s, s <> "" -> catalog_column_clause (MaxText s) col = None)
  /\ (forall b, b <> [] -> catalog_column_clause (MaxBlob b) col = None)
  /\ catalog_column_clause (MaxText "") col = catalog_column_clause (MaxInt 0) col.
Proof.
  assert (Hqueried : queried (column_type col) = true).
  { unfold column_type. destruct (String.eqb_spec (ci_type col) "") as [Hempty|_].
    - rewrite Hempty in Hinteger. discriminate Hinteger.
    - now rewrite Hinteger. }
  unfold catalog_column_clause. rewrite Hqueried. split; [|split].
  - intros s Hs. cbn [statistic]. apply String.eqb_neq in Hs. now rewrite Hs.
  - intros [|x b] Hb; [contradiction | reflexivity].
  - reflexivity.
Qed.

Lemma text_maximum_stops_structure_witness :
  catalog_column_clause (MaxText "abc") (ColumnInfo 0 "id" "integer" 1 None 1) = None.
Proof.
  apply (text_maximum_stops_structure (ColumnInfo 0 "id" "integer" 1 None 1) eq_refl
           : _ /\ _).
  discriminate.
Defined.

(* ================================================================== *)
(** * Value encoder: further properties *)
(* ================================================================== *)

(** X17: a binary value of a BLOB column that is longer than the inline
    threshold is never written into the dump.  Its literal is either NULL
    with one warning, or LOAD_FILE of a path, with exactly that one file
    written with the value's bytes.  With NULL the files are as they were,
    except when the writing of the value's own file was begun and failed:
    then that one path holds what the failed attempt left there, and
    every other file is as it was. *)
Theorem oversized_blob_never_inline (cfg : config) (env : os_env) (item_name col_name : string)
    (offset : Z) (i : nat) (files : file_store) (b : list byte)
    (Hlarge : max_blob_size cfg < Z.of_nat (length b)) :
  let r := encode_value cfg env item_name col_name "BLOB" offset i files (VBytes b) in
  (r.1.1 = "NULL" /\ length r.2 = 1%nat
   /\ (r.1.2 = files
       \/ exists dir remains,
            blob_dir cfg = Some dir
            /\ write_ok env (path_join dir (blob_filename item_name col_name offset i)) = false
            /\ write_failure_leaves env (path_join dir (blob_filename item_name col_name offset i))
               = Some remains
            /\ r.1.2 = <[path_join dir (blob_filename item_name col_name offset i) := remains]> files))
  \/ (exists path referenced,
        r.1.1 = "LOAD_FILE('" +:+ referenced +:+ "')"
        /\ r.1.2 = <[path := b]> files /\ r.2 = []).
Proof.
  unfold encode_value. cbn [String.eqb Ascii.eqb Bool.eqb].
  replace (max_blob_size cfg <? Z.of_nat (length b)) with true
    by (symmetry; apply Z.ltb_lt; lia).
  destruct (blob_dir cfg) as [dir|]; [|left; split; [|split; [|left]]; reflexivity].
  destruct (String.eqb dir ""); cbn [negb andb];
    [left; split; [|split; [|left]]; reflexivity|].
  destruct (makedirs_ok env dir); cbn [negb];
    [|left; split; [|split; [|left]]; reflexivity].
  destruct (write_ok env _) eqn:Hwrite.
  - rewrite lookup_insert_eq. right.
    destruct (relative_blob_paths cfg); eauto.
  - left. destruct (write_failure_leaves env _) as [remains|] eqn:Hleaves.
    + split; [reflexivity|]. split; [reflexivity|].
      right. exists dir, remains. repeat split; assumption.
    + split; [|split; [|left]]; reflexivity.
Qed.

Lemma oversized_blob_never_inline_witness :
  encode_value (Config "both" 1000 2 None false "out.sql")
    (OsEnv (fun _ => true) (fun _ => true) (fun p _ => p) (fun p => p) (fun _ => false) (fun _ => None))
    "t" "data" "BLOB" 0 1 ∅ (VBytes [x01; x02; x03])
  = ("NULL", ∅, [WarnLargeBlob "data" 3]).
Proof.
  destruct (oversized_blob_never_inline (Config "both" 1000 2 None false "out.sql")
              (OsEnv (fun _ => true) (fun _ => true) (fun p _ => p) (fun p => p)
                     (fun _ => false) (fun _ => None))
              "t" "data" 0 1 ∅ [x01; x02; x03]) as [_|_].
  - simpl. lia.
  - reflexivity.
  - reflexivity.
Defined.

(** A write that fails after the file was opened: the value becomes NULL
    with the warning of line 383, and the file is there with what was
    written before the error. *)
Example failed_blob_write_leaves_file :
  encode_value (Config "both" 1000 2 (Some "blobs") false "out.sql")
    (OsEnv (fun _ => true) (fun _ => false) (fun p _ => p) (fun p => p) (fun _ => false)
           (fun _ => Some [x01]))
    "t" "data" "BLOB" 0 1 ∅ (VBytes [x01; x02; x03])
  = ("NULL", {[ "blobs/t_data_0_1.bin" := [x01] ]}, [WarnBlobWriteError "blobs/t_data_0_1.bin"]).
Proof. reflexivity. Qed.




Lemma encode_values_too_long (cfg : config) (env : os_env) (item_name : string)
    (columns_info : list column_info) (column_metadata : gmap string metadata)
    (offset : Z) (row : list value) :
  forall i files,
    (i <= length columns_info < i + length row)%nat ->
    encode_values cfg env item_name columns_info column_metadata offset i row files = None.
Proof.
  induction row as [|v row IH]; intros i files Hlong; [cbn [length] in Hlong; lia|].
  cbn [encode_values].
  destruct (columns_info !! i) as [col|] eqn:Hcol; [|reflexivity].
  cbn [mbind option_bind].
  destruct (column_metadata !! ci_name col) as [meta|]; [|reflexivity].
  cbn [mbind option_bind].
  destruct (encode_value _ _ _ _ _ _ _ _ v) as [[lit files1] log1].
  rewrite IH; [reflexivity|]. cbn [length] in Hlong.
  apply lookup_lt_Some in Hcol. lia.
Qed.

(** X19: a fetched row is encoded without an exception exactly when it has
    no more values than the table has columns; it then gives one literal
    per value.  (A longer row raises the [IndexError] of line 359.) *)
Theorem encode_values_succeeds_iff (cfg : config) (env : os_env) (item_name : string)
    (columns_info : list column_info) (probe : string -> option Z)
    (offset : Z) (row : list value) (files : file_store) :
  let column_metadata := build_column_metadata probe columns_info in
  (is_Some (encode_values cfg env item_name columns_info column_metadata offset 0 row files)
   <-> (length row <= length columns_info)%nat)
  /\ (forall lits files' logs,
        encode_values cfg env item_name columns_info column_metadata offset 0 row files
          = Some (lits, files', logs) -> length lits = length row).
Proof.
  intros column_metadata.
  pose proof (build_column_metadata_known probe columns_info) as Hknown.
  split; [split|].
  - intros [r Hr]. destruct (le_lt_dec (length row) (length columns_info)) as [|Hlong]; [done|].
    rewrite encode_values_too_long in Hr by (cbn; lia). discriminate Hr.
  - intros Hfit.
    destruct (encode_values_fits cfg env item_name columns_info column_metadata Hknown
                offset row 0 files) as (lits & files' & logs & Hr & _); [cbn; lia|].
    rewrite Hr. eauto.
  - intros lits files' logs Hr.
    destruct (le_lt_dec (length row) (length columns_info)) as [Hfit|Hlong].
    + destruct (encode_values_fits cfg env item_name columns_info column_metadata Hknown
                  offset row 0 files) as (lits' & files'' & logs' & Hr' & Hlen); [cbn; lia|].
      rewrite Hr in Hr'. now injection Hr' as -> _ _.
    + rewrite encode_values_too_long in Hr by (cbn; lia). discriminate Hr.
Qed.

Lemma zero_page_size_never_finishes_witness :
  export_pages (Config "data" 0 1048576 None false "out.sql")
    (OsEnv (fun _ => true) (fun _ => true) (fun p _ => p) (fun p => p) (fun _ => false) (fun _ => None))
    "t" [ColumnInfo 0 "id" "INTEGER" 1 None 1]
    (build_column_metadata (fun _ => Some 1) [ColumnInfo 0 "id" "INTEGER" 1 None 1])
    1000 [[VInt 1]] 0 (RunState [] [] ∅ []) = OutOfFuel.
Proof.
  apply zero_page_size_never_finishes.
  - reflexivity.
  - simpl. lia.
  - reflexivity.
Defined.

(* ================================================================== *)
(** * Data export: every row once, in order *)
(* ================================================================== *)


Section NoBlobDirectory.

Variable cfg : config.
Variable env : os_env.
Variable item_name : string.
Variable columns_info : list column_info.
Variable column_metadata : gmap string metadata.

Hypothesis no_directory : blob_dir cfg = None.





Hypothesis never_interrupted : forall offset, ctrl_c_pressed env offset = false.


End NoBlobDirectory.



(* ================================================================== *)
(** * Emission order of the catalog items *)
(* ================================================================== *)

Lemma str_in_elem_of (x : string) (l : list string) : Py.str_in x l = true <-> x ∈ l.
Proof.
  unfold Py.str_in. induction l as [|y l IH]; cbn [existsb].
  - split; [discriminate | inversion 1].
  - rewrite orb_true_iff, IH, elem_of_cons, String.eqb_eq. reflexivity.
Qed.

Lemma list_index_Some (x : string) (l : list string) (k : nat) :
  list_index x l = Some k -> l !! k = Some x.
Proof.
  revert k. induction l as [|y l IH]; intros k; [discriminate|].
  cbn [list_index]. destruct (String.eqb_spec y x) as [->|_].
  - now intros [= <-].
  - destruct (list_index x l) as [k'|]; [|discriminate].
    intros [= <-]. now apply IH.
Qed.

Lemma list_index_elem_of (x : string) (l : list string) :
  x ∈ l -> is_Some (list_index x l).
Proof.
  induction l as [|y l IH]; [inversion 1|].
  cbn [list_index]. destruct (String.eqb_spec y x) as [->|Hne]; [eauto|].
  intros Hin. apply elem_of_cons in Hin as [->|Hin]; [contradiction|].
  destruct (IH Hin) as [k ->]. eauto.
Qed.

Lemma insert_by_rank_perm (x : ranked_item) (l : list ranked_item) :
  insert_by_rank x l ≡ₚ x :: l.
Proof.
  induction l as [|y l IH]; [reflexivity|].
  cbn [insert_by_rank]. destruct (x.2 <=? y.2)%nat; [reflexivity|].
  rewrite IH. apply Permutation_swap.
Qed.

Lemma sort_by_rank_perm (l : list ranked_item) : sort_by_rank l ≡ₚ l.
Proof.
  induction l as [|x l IH]; [reflexivity|].
  cbn [sort_by_rank foldr]. fold (sort_by_rank l). now rewrite insert_by_rank_perm, IH.
Qed.

Lemma insert_by_rank_sorted (x : ranked_item) (l : list ranked_item) :
  StronglySorted (fun a b : ranked_item => (a.2 <= b.2)%nat) l ->
  StronglySorted (fun a b : ranked_item => (a.2 <= b.2)%nat) (insert_by_rank x l).
Proof.
  induction 1 as [|y l Hl IH Hy]; [repeat constructor|].
  cbn [insert_by_rank]. destruct (Nat.leb_spec x.2 y.2) as [Hle|Hgt].
  - constructor; [now constructor|].
    constructor; [exact Hle|]. eapply Forall_impl; [exact Hy|]. cbn. intros z Hz. lia.
  - constructor; [exact IH|].
    rewrite insert_by_rank_perm. constructor; [lia | exact Hy].
Qed.

Lemma sort_by_rank_sorted (l : list ranked_item) :
  StronglySorted (fun a b : ranked_item => (a.2 <= b.2)%nat) (sort_by_rank l).
Proof.
  induction l as [|x l IH]; [constructor|].
  cbn [sort_by_rank foldr]. now apply insert_by_rank_sorted.
Qed.

(** The sort is stable: the items of one rank keep their order. *)
Lemma insert_by_rank_stable (k : nat) (x : ranked_item) (l : list ranked_item) :
  filter (fun y : ranked_item => y.2 = k) (insert_by_rank x l)
  = filter (fun y : ranked_item => y.2 = k) (x :: l).
Proof.
  induction l as [|y l IH]; [reflexivity|].
  cbn [insert_by_rank]. destruct (Nat.leb_spec x.2 y.2) as [Hle|Hgt]; [reflexivity|].
  rewrite filter_cons, IH, !filter_cons.
  destruct (decide (y.2 = k)), (decide (x.2 = k)); try reflexivity. lia.
Qed.

Lemma sort_by_rank_stable (k : nat) (l : list ranked_item) :
  filter (fun y : ranked_item => y.2 = k) (sort_by_rank l)
  = filter (fun y : ranked_item => y.2 = k) l.
Proof.
  induction l as [|x l IH]; [reflexivity|].
  cbn [sort_by_rank foldr]. fold (sort_by_rank l).
  now rewrite insert_by_rank_stable, !filter_cons, IH.
Qed.

Lemma sorted_split_at_top (n : nat) (l : list ranked_item) :
  StronglySorted (fun a b : ranked_item => (a.2 <= b.2)%nat) l ->
  Forall (fun a : ranked_item => (a.2 <= n)%nat) l ->
  l = filter (fun a : ranked_item => (a.2 < n)%nat) l
      ++ filter (fun a : ranked_item => a.2 = n) l.
Proof.
  induction 1 as [|a l Hl IH Ha]; intros Hall; [reflexivity|].
  apply Forall_cons in Hall as [Han Hall]. rewrite !filter_cons.
  destruct (decide (a.2 < n)%nat) as [Hlt|Hge].
  - rewrite decide_False by lia. cbn [app]. f_equal. now apply IH.
  - rewrite decide_True by lia.
    assert (Htop : Forall (fun b : ranked_item => b.2 = n) l).
    { rewrite Forall_forall in *. intros b Hb. specialize (Ha b Hb). specialize (Hall b Hb).
      cbn in *. lia. }
    assert (Hnone : filter (fun a : ranked_item => (a.2 < n)%nat) l = []).
    { clear -Htop. induction Htop as [|b l Hb _ IHl]; [reflexivity|].
      rewrite filter_cons, decide_False by lia. exact IHl. }
    assert (Hsame : filter (fun a : ranked_item => a.2 = n) l = l).
    { clear -Htop. induction Htop as [|b l Hb _ IHl]; [reflexivity|].
      rewrite filter_cons, decide_True by exact Hb. now rewrite IHl. }
    now rewrite Hnone, Hsame.
Qed.

Lemma dict_set_keys {V} (k : string) (v : V) (d : list (string * V)) (x : string) :
  x ∈ (dict_set k v d).*1 -> x = k \/ x ∈ d.*1.
Proof.
  induction d as [|[k' v'] d IH]; cbn [dict_set].
  - rewrite fmap_cons, elem_of_cons. cbn. intros [->|H]; [now left | inversion H].
  - destruct (String.eqb_spec k' k) as [->|Hne]; rewrite !fmap_cons, !elem_of_cons; cbn.
    + tauto.
    + intros [->|H]; [tauto|]. destruct (IH H); tauto.
Qed.

Lemma table_dependencies_raises (fk_list : string -> option (list fk_row))
    (tables : list string) :
  Exists (fun t => fk_list t = None) tables -> table_dependencies fk_list tables = None.
Proof.
  unfold table_dependencies.
  set (f := fun (acc : option fk_dict) table =>
              d ← acc; rows ← fk_list table; Some (dict_set table rows d)).
  assert (Hnone : forall l, foldl f None l = None).
  { induction l as [|t l IH]; [reflexivity | exact IH]. }
  generalize (Some (@nil (string * list fk_row))).
  induction tables as [|t l IH]; intros acc Hex; [inversion Hex|].
  cbn [foldl]. apply Exists_cons in Hex as [Ht|Hl].
  - unfold f at 2. rewrite Ht. destruct acc; apply Hnone.
  - now apply IH.
Qed.

Lemma table_dependencies_keyed (fk_list : string -> option (list fk_row))
    (tables : list string) :
  Forall (fun t => is_Some (fk_list t)) tables ->
  exists dependencies,
    table_dependencies fk_list tables = Some dependencies
    /\ keyed_by tables dependencies.
Proof.
  unfold keyed_by, table_dependencies.
  set (f := fun (acc : option fk_dict) table =>
              d ← acc; rows ← fk_list table; Some (dict_set table rows d)).
  assert (Hgen : forall l (d : fk_dict),
            Forall (fun t => is_Some (fk_list t)) l ->
            exists d', foldl f (Some d) l = Some d'
                       /\ forall x, x ∈ d'.*1 -> x ∈ d.*1 \/ x ∈ l).
  { induction l as [|t l IH]; intros d Hall; [exists d; split; [reflexivity | now left]|].
    apply Forall_cons in Hall as [[rows Hrows] Hall].
    cbn [foldl]. unfold f at 2. cbn [mbind option_bind]. rewrite Hrows. cbn [mbind option_bind].
    destruct (IH (dict_set t rows d) Hall) as (d' & Hrun & Hkeys).
    exists d'. split; [exact Hrun|]. intros x Hx.
    destruct (Hkeys x Hx) as [Hd|Hl].
    - apply dict_set_keys in Hd as [->|Hd]; [right; left | now left].
    - right. now right. }
  intros Hall. destruct (Hgen tables [] Hall) as (d' & Hrun & Hkeys).
  exists d'. split; [exact Hrun|].
  intros t Ht. destruct (Hkeys t Ht) as [H|H]; [inversion H | exact H].
Qed.

Lemma resolver_permutation (tables : list string) (foreign_keys : fk_dict) :
  NoDup tables -> keyed_by tables foreign_keys ->
  exists order log,
    topological_sort_tables tables foreign_keys = Some (order, log) /\ order ≡ₚ tables.
Proof.
  intros Hnodup Hkeyed.
  destruct (kahn_sorted_spec tables foreign_keys Hnodup Hkeyed)
    as (sorted & Hrun & Hnd & Hsub & _).
  destruct (append_unsorted_permutation tables sorted Hnodup Hnd Hsub) as (Happ & Hperm & _).
  unfold topological_sort_tables. rewrite Hrun. cbn [fmap option_fmap option_map].
  rewrite Happ. eauto.
Qed.

Lemma rank_items_elem (sorted_tables : list string) (items : list (string * option string))
    (name : string) (sql : option string) (k : nat) :
  (name, sql, k) ∈ rank_items sorted_tables items ->
  (name, sql) ∈ items /\ name <> "sqlite_sequence"
  /\ k = (if is_create_table sql && Py.str_in name sorted_tables
          then default (length sorted_tables) (list_index name sorted_tables)
          else length sorted_tables).
Proof.
  unfold rank_items. rewrite list_elem_of_bind. intros ([name' sql'] & Hin & Hitem).
  cbn [fst snd] in Hin.
  destruct (String.eqb_spec name' "sqlite_sequence") as [|Hne]; [inversion Hin|].
  destruct (is_create_table sql' && Py.str_in name' sorted_tables) eqn:Hbranch;
    apply list_elem_of_singleton in Hin; injection Hin as -> -> ->; rewrite Hbranch; auto.
Qed.

(** X21: the emission order of the items of a catalog whose table names
    are distinct.  If the foreign-key query of line 159 raises for one of
    the tables (as it does for a name that holds a backtick), there is no
    order: the run ends there.  If it answers for every table, the items
    are emitted in the order of their ranks, a permutation of the
    catalog's items without [sqlite_sequence]: first the tables, each at
    the rank of its position in the resolver's order, then every other
    item (views, triggers) in catalog order. *)
Theorem items_emission_order (fk_list : string -> option (list fk_row))
    (items : list (string * option string))
    (Hnodup : NoDup (catalog_tables items)) :
  (Exists (fun t => fk_list t = None) (catalog_tables items) ->
   sorted_items fk_list items = None)
  /\ (Forall (fun t => is_Some (fk_list t)) (catalog_tables items) ->
      exists dependencies sorted_tables log result,
        table_dependencies fk_list (catalog_tables items) = Some dependencies
        /\ topological_sort_tables (catalog_tables items) dependencies
           = Some (sorted_tables, log)
        /\ sorted_items fk_list items = Some result
        /\ result ≡ₚ rank_items sorted_tables items
        /\ StronglySorted (fun a b : ranked_item => (a.2 <= b.2)%nat) result
        /\ result
           = filter (fun a : ranked_item => (a.2 < length sorted_tables)%nat) result
             ++ filter (fun a : ranked_item => a.2 = length sorted_tables)
                  (rank_items sorted_tables items)
        /\ (forall name sql k, (name, sql, k) ∈ result ->
              ((k < length sorted_tables)%nat <-> is_create_table sql = true)
              /\ ((k < length sorted_tables)%nat -> sorted_tables !! k = Some name))).
Proof.
  split.
  { intros Hraise. unfold sorted_items.
    now rewrite (table_dependencies_raises fk_list (catalog_tables items) Hraise). }
  intros Hanswers.
  destruct (table_dependencies_keyed fk_list (catalog_tables items) Hanswers)
    as (dependencies & Hdeps & Hkeyed).
  destruct (resolver_permutation (catalog_tables items) dependencies Hnodup Hkeyed)
    as (sorted_tables & log & Hrun & Hperm).
  exists dependencies, sorted_tables, log, (sort_by_rank (rank_items sorted_tables items)).
  split; [exact Hdeps|].
  split; [exact Hrun|]. split; [unfold sorted_items; now rewrite Hdeps, Hrun|].
  split; [apply sort_by_rank_perm|]. split; [apply sort_by_rank_sorted|].
  assert (Hrank : forall name sql k, (name, sql, k) ∈ rank_items sorted_tables items ->
            (k <= length sorted_tables)%nat
            /\ ((k < length sorted_tables)%nat <-> is_create_table sql = true)
            /\ ((k < length sorted_tables)%nat -> sorted_tables !! k = Some name)).
  { intros name sql k Hin.
    apply rank_items_elem in Hin as (Hitem & Hname & ->).
    destruct (is_create_table sql) eqn:Htable; cbn [andb].
    - assert (Hmember : name ∈ sorted_tables).
      { rewrite Hperm. unfold catalog_tables.
        apply (list_elem_of_fmap_2' fst _ (name, sql)); [|reflexivity].
        apply list_elem_of_filter. split; [|exact Hitem]. cbn [fst snd].
        apply String.eqb_neq in Hname. now rewrite Hname, Htable. }
      rewrite (proj2 (str_in_elem_of name sorted_tables) Hmember).
      destruct (list_index_elem_of name sorted_tables Hmember) as [k Hk]. rewrite Hk. cbn.
      pose proof (list_index_Some _ _ _ Hk) as Hlook.
      pose proof (lookup_lt_Some _ _ _ Hlook). repeat split; auto; lia.
    - repeat split; try lia; try discriminate. }
  split.
  - rewrite <- (sort_by_rank_stable (length sorted_tables)).
    apply sorted_split_at_top; [apply sort_by_rank_sorted|].
    rewrite Forall_forall. intros [[name sql] k] Hin.
    rewrite sort_by_rank_perm in Hin. now apply Hrank in Hin.
  - intros name sql k Hin. rewrite sort_by_rank_perm in Hin.
    apply Hrank in Hin as (_ & H1 & H2). split; assumption.
Qed.

Lemma items_emission_order_witness :
  sorted_items
    (fun t => if String.eqb t "b"
              then Some [FkRow 0 0 "a" "x" "y" "NO ACTION" "NO ACTION" "NONE"] else Some [])
    [("v", Some "CREATE VIEW v AS SELECT 1"); ("b", Some "CREATE TABLE b (x)");
     ("a", Some "create table a (y)")]
  = Some [("a", Some "create table a (y)", 0%nat); ("b", Some "CREATE TABLE b (x)", 1%nat);
          ("v", Some "CREATE VIEW v AS SELECT 1", 2%nat)]
  /\ sorted_items (fun t => if String.eqb t "a`b" then None else Some [])
       [("a`b", Some "CREATE TABLE `a``b` (x)"); ("c", Some "CREATE TABLE c (y)")]
     = None.
Proof.
  split.
  - destruct (items_emission_order
                (fun t => if String.eqb t "b"
                          then Some [FkRow 0 0 "a" "x" "y" "NO ACTION" "NO ACTION" "NONE"]
                          else Some [])
                [("v", Some "CREATE VIEW v AS SELECT 1"); ("b", Some "CREATE TABLE b (x)");
                 ("a", Some "create table a (y)")])
      as [_ Horder].
    + apply (bool_decide_unpack _). vm_compute. exact I.
    + destruct Horder as (dependencies & sorted_tables & log & result & _ & _ & Hitems & _).
      * apply (bool_decide_unpack _). vm_compute. exact I.
      * rewrite Hitems. vm_compute in Hitems. injection Hitems as <-. reflexivity.
  - destruct (items_emission_order (fun t => if String.eqb t "a`b" then None else Some [])
                [("a`b", Some "CREATE TABLE `a``b` (x)"); ("c", Some "CREATE TABLE c (y)")])
      as [Hraise _].
    + apply (bool_decide_unpack _). vm_compute. exact I.
    + apply Hraise. apply Exists_cons_hd. reflexivity.
Defined.

(* ================================================================== *)
(** * Data export: a negative page size *)
(* ================================================================== *)



